(** * ChatGroup: routing and turn control of the AI group chat

    A shallow embedding of [chatgroup.py] (class [AIGroupChatGUI] and the
    data classes it uses) together with the properties of the
    conversation engine: mention parsing, per-robot views of the chat
    history, the choice of responding robots, the turn limit, the
    post-processing of robot replies and the saving of the configuration;
    then the other handlers that change the state of the window (clearing
    the chat, the name of the user, the robot editor, the deletion of a
    robot, the two switches) and the states that the window reaches.

    Python values are modelled as follows.
    - [str] is a list of Unicode code points ([list N]); source literals
      are written as UTF-8 text and decoded by [utf8].
    - [int] is [Z].
    - [Optional[T]] is [option T].
    - [self.active_robots], a [dict] iterated in insertion order, is an
      association list from robot names to [RobotConfig]s.
    - the fields of [self] that the engine reads or writes are the fields
      of the record [GUI]; a method takes the record and returns the new
      one.  A thread or a callback a method starts is returned with the
      record and run by the caller: one thread runs at a time, to its
      end. *)

From Stdlib Require Import NArith ZArith Bool String Ascii DecimalString Lia.
From stdpp Require Import base decidable option list.

Local Open Scope N_scope.

Module ChatGroup.

(** ** Python strings *)

Abbreviation pystr := (list N).

(** Bytes of a Rocq string literal. *)
Fixpoint bytes_of (s : string) : list N :=
  match s with
  | EmptyString => []
  | String a r => N_of_ascii a :: bytes_of r
  end.

(** UTF-8 decoding of a byte sequence into code points (the literals of
    the source file are UTF-8 text). *)
Fixpoint utf8_decode (bs : list N) : pystr :=
  match bs with
  | [] => []
  | b0 :: r0 =>
    if b0 <? 128 then b0 :: utf8_decode r0
    else match r0 with
    | [] => [b0]
    | b1 :: r1 =>
      if b0 <? 224 then ((b0 mod 32) * 64 + b1 mod 64) :: utf8_decode r1
      else match r1 with
      | [] => [b0]
      | b2 :: r2 =>
        if b0 <? 240
        then ((b0 mod 16) * 4096 + (b1 mod 64) * 64 + b2 mod 64) :: utf8_decode r2
        else match r2 with
        | [] => [b0]
        | b3 :: r3 =>
          ((b0 mod 8) * 262144 + (b1 mod 64) * 4096 + (b2 mod 64) * 64 + b3 mod 64)
            :: utf8_decode r3
        end
      end
    end
  end.

Definition utf8 (s : string) : pystr := utf8_decode (bytes_of s).

(** [str.isspace] on one character, which is also the class [\s] of [re]
    on [str] patterns and the set removed by [str.strip()]. *)
Definition py_isspace (c : N) : bool :=
  ((9 <=? c) && (c <=? 13)) || ((28 <=? c) && (c <=? 32))
  || (c =? 133) || (c =? 160) || (c =? 5760)
  || ((8192 <=? c) && (c <=? 8202))
  || (c =? 8232) || (c =? 8233) || (c =? 8239) || (c =? 8287) || (c =? 12288).

(** The ASCII part of the class [\w]: digits, letters and the underscore. *)
Definition ascii_word (c : N) : bool :=
  ((48 <=? c) && (c <=? 57)) || ((65 <=? c) && (c <=? 90))
  || ((97 <=? c) && (c <=? 122)) || (c =? 95).

(** Outside ASCII the class [\w] is [str.isalnum], a table of the Unicode
    character database of the interpreter; the table is not part of the
    repository and is taken as given.  No alphanumeric character is a
    whitespace character. *)
Class UnicodeData : Type := {
  uni_isalnum : N -> bool;
  uni_isalnum_not_space : forall c, uni_isalnum c = true -> py_isspace c = false
}.

(** The validation of [HttpUrl] fields is done by pydantic, which is not
    part of the repository either. *)
Class Pydantic : Type := { is_http_url : list N -> bool }.

(** A character table that knows the CJK unified ideographs only. *)
Definition cjk_isalnum (c : N) : bool := (19968 <=? c) && (c <=? 40959).

Section Strings.
Context `{UD : UnicodeData}.

Definition is_word (c : N) : bool :=
  if c <? 128 then ascii_word c else uni_isalnum c.

(** [s.startswith(p)] *)
Fixpoint startswith (s p : pystr) {struct p} : bool :=
  match p with
  | [] => true
  | a :: p' =>
    match s with
    | [] => false
    | b :: s' => (a =? b) && startswith s' p'
    end
  end.

(** [s.lstrip()], [s.rstrip()] and [s.strip()] *)
Fixpoint lstrip (s : pystr) : pystr :=
  match s with
  | c :: s' => if py_isspace c then lstrip s' else s
  | [] => []
  end.

Definition rstrip (s : pystr) : pystr := rev (lstrip (rev s)).

Definition strip (s : pystr) : pystr := rstrip (lstrip s).

(** The tail [\w+\s] of [mention_pattern], matched greedily with
    backtracking: the result is group 1 and the text after the match. *)
Fixpoint match_word_space (s : pystr) : option (pystr * pystr) :=
  match s with
  | c :: s' =>
    if is_word c then
      match match_word_space s' with
      | Some (w, r) => Some (c :: w, r)
      | None =>
        match s' with
        | d :: r => if py_isspace d then Some ([c], r) else None
        | [] => None
        end
      end
    else None
  | [] => None
  end.

(** [re.match(r'^@(\w+)\s', content)]: group 1 and the text after the
    match, when the pattern matches at the start of [content]. *)
Definition re_match_mention (content : pystr) : option (pystr * pystr) :=
  match content with
  | 64 :: s => match_word_space s
  | _ => None
  end.

(** [re.sub(mention_pattern, '', content)]: the pattern is anchored, so at
    most the match at the start is removed. *)
Definition re_sub_mention (content : pystr) : pystr :=
  match re_match_mention content with
  | Some (_, rest) => rest
  | None => content
  end.

End Strings.

(** [str(n)] for an [int]. *)
Definition py_str_int (n : Z) : pystr :=
  bytes_of (NilZero.string_of_int (Z.to_int n)).

(** [bool(s)] for a [str] and for an [Optional[str]]. *)
Definition truthy (s : pystr) : bool :=
  match s with [] => false | _ :: _ => true end.

Definition truthy_opt (o : option pystr) : bool :=
  match o with Some s => truthy s | None => false end.

(** [bool(d)] for a [dict] or a [list], and for an optional object. *)
Definition truthy_list {A : Type} (d : list A) : bool :=
  match d with [] => false | _ :: _ => true end.

Definition is_Some_b {A : Type} (o : option A) : bool :=
  match o with Some _ => true | None => false end.

(** ** Data model *)

Inductive Role : Type := SYSTEM | USER | ASSISTANT | DEVELOPER | FUNCTION | TOOL.

Record Message : Type := mkMessage {
  role : Role;
  content : pystr;
  name : pystr;
  target : option pystr
}.

(** [Message(role=..., content=..., name=...)]: the target defaults to
    [None]. *)
Definition Message_untargeted (r : Role) (c n : pystr) : Message :=
  mkMessage r c n None.

(** The request: the model and the messages; the sampling parameters,
    which the engine leaves at constants, are left out. *)
Record ChatCompletionRequest : Type := mkRequest {
  request_model : pystr;
  messages : list Message
}.

(** What [AIClient.chat_completion] does: it raises (a [ValueError] whose
    text is given) or returns a response, of which the engine reads the
    messages of the choices. *)
Inductive Completion : Type :=
| Raised (e : pystr)
| Returned (choices : list Message).

Record AIClient : Type := mkClient {
  client_api_key : pystr;
  client_base_url : pystr;
  client_timeout : Z;
  client_proxy : pystr;
  model : pystr
}.

Record RobotConfig : Type := mkRobot {
  rc_name : pystr;
  prompt : pystr;
  prompt_file : option pystr;
  enabled : bool;
  auto_respond_to_ai : bool;
  auto_respond_to_all : bool;
  color : option pystr
}.

(** [ConfigManager.main_config]: the keys of [default_main_config]. *)
Record MainConfig : Type := mkConfig {
  api_key : pystr;
  base_url : pystr;
  config_model : pystr;
  timeout : Z;
  proxy : pystr;
  default_robots : list pystr;
  user_name : pystr;
  allow_ai_conversations : bool;
  max_ai_conversation_turns : Z
}.

(** What the engine does to the outside, in the order it does it: a
    dispatch round starts, the completion client is called. *)
Inductive Event : Type :=
| Round (last_message : Message) (is_ai_message : bool)
| Call (robot_name : pystr) (request : ChatCompletionRequest).

(** The fields of [AIGroupChatGUI] the engine works on.  [robot_dir] is
    what [ConfigManager.load_all_robots] reads from the robot directory;
    [message_queue] holds what has been put on the queue, in order (the
    consumer is given the message it takes, see [process_message]);
    [trace] records the rounds and the calls of the client. *)
Record GUI : Type := mkGUI {
  main_config : MainConfig;
  robot_dir : list (pystr * RobotConfig);
  active_robots : list (pystr * RobotConfig);
  chat_history : list Message;
  ai_client : option AIClient;
  ai_conversation_turns : Z;
  infinite_loop : bool;
  dev_mode : bool;
  message_queue : list Message;
  ai_processing : bool;
  trace : list Event
}.

#[global] Instance Role_eq_dec : EqDecision Role.
Proof. solve_decision. Defined.

#[global] Instance Message_eq_dec : EqDecision Message.
Proof. solve_decision. Defined.

#[global] Instance RobotConfig_eq_dec : EqDecision RobotConfig.
Proof. solve_decision. Defined.

(** Field updates of [self]. *)
Definition set_main_config (c : MainConfig) (g : GUI) : GUI :=
  mkGUI c (robot_dir g) (active_robots g) (chat_history g) (ai_client g)
    (ai_conversation_turns g) (infinite_loop g) (dev_mode g)
    (message_queue g) (ai_processing g) (trace g).

Definition set_active_robots (a : list (pystr * RobotConfig)) (g : GUI) : GUI :=
  mkGUI (main_config g) (robot_dir g) a (chat_history g) (ai_client g)
    (ai_conversation_turns g) (infinite_loop g) (dev_mode g)
    (message_queue g) (ai_processing g) (trace g).

Definition set_chat_history (h : list Message) (g : GUI) : GUI :=
  mkGUI (main_config g) (robot_dir g) (active_robots g) h (ai_client g)
    (ai_conversation_turns g) (infinite_loop g) (dev_mode g)
    (message_queue g) (ai_processing g) (trace g).

Definition set_ai_client (c : option AIClient) (g : GUI) : GUI :=
  mkGUI (main_config g) (robot_dir g) (active_robots g) (chat_history g) c
    (ai_conversation_turns g) (infinite_loop g) (dev_mode g)
    (message_queue g) (ai_processing g) (trace g).

Definition set_ai_conversation_turns (n : Z) (g : GUI) : GUI :=
  mkGUI (main_config g) (robot_dir g) (active_robots g) (chat_history g)
    (ai_client g) n (infinite_loop g) (dev_mode g)
    (message_queue g) (ai_processing g) (trace g).

Definition set_ai_processing (b : bool) (g : GUI) : GUI :=
  mkGUI (main_config g) (robot_dir g) (active_robots g) (chat_history g)
    (ai_client g) (ai_conversation_turns g) (infinite_loop g) (dev_mode g)
    (message_queue g) b (trace g).

(** [self.message_queue.put(msg)] *)
Definition message_queue_put (msg : Message) (g : GUI) : GUI :=
  mkGUI (main_config g) (robot_dir g) (active_robots g) (chat_history g)
    (ai_client g) (ai_conversation_turns g) (infinite_loop g) (dev_mode g)
    (message_queue g ++ [msg]) (ai_processing g) (trace g).

Definition record_event (e : Event) (g : GUI) : GUI :=
  mkGUI (main_config g) (robot_dir g) (active_robots g) (chat_history g)
    (ai_client g) (ai_conversation_turns g) (infinite_loop g) (dev_mode g)
    (message_queue g) (ai_processing g) (trace g ++ [e]).

(** [d[k] = v] on a [dict] kept in insertion order. *)
Fixpoint dict_set {V : Type} (k : pystr) (v : V) (d : list (pystr * V))
  : list (pystr * V) :=
  match d with
  | [] => [(k, v)]
  | (k', v') :: d' =>
    if decide (k' = k) then (k, v) :: d' else (k', v') :: dict_set k v d'
  end.

(** [k in d] *)
Definition dict_has {V : Type} (k : pystr) (d : list (pystr * V)) : bool :=
  bool_decide (k ∈ map fst d).

(** [sep.join(lines)] *)
Fixpoint join (sep : pystr) (lines : list pystr) : pystr :=
  match lines with
  | [] => []
  | [l] => l
  | l :: ls => l ++ sep ++ join sep ls
  end.

(** ** Literals of the source *)

Definition nl : pystr := [10].

Definition system_name : pystr := utf8 "系统".

Definition default_user_name : pystr := utf8 "用户".

(** The prefix [clear_chat] and the history loop look for. *)
Definition persona_marker : pystr := utf8 "机器人 ".

(** [f"机器人 {robot_name} 的提示词: {robot_config.prompt}"] *)
Definition persona_text (robot_name prompt : pystr) : pystr :=
  utf8 "机器人 " ++ robot_name ++ utf8 " 的提示词: " ++ prompt.

Definition roster_head (user_name : pystr) : pystr :=
  utf8 "群聊成员名单：" ++ nl ++ utf8 "- 用户（human）：" ++ user_name ++ nl.

Definition roster_line (robot_name : pystr) : pystr :=
  utf8 "- 机器人（robot）：" ++ robot_name ++ nl.

(** The triple-quoted text that follows [{robot_list_info}], the same in
    [load_all_robots_on_start] and in [trigger_ai_responses]. *)
Definition group_rules (robot_name : pystr) : pystr :=
  nl ++ utf8 "你是机器人（robot），名字是 " ++ robot_name ++ utf8 "。" ++ nl ++
  join nl [
    utf8 "你的属性：";
    utf8 "- 可以被 @ 并回应 @ 消息";
    utf8 "- 可以回应其他 AI 的消息（根据系统设置）";
    utf8 "- 可以回应公开消息（根据系统设置）";
    [];
    utf8 "在这个群组聊天中：";
    utf8 "- 你只能看到 @你 的消息或公开消息（无 @ 标记）。";
    utf8 "- 如果消息 @ 了其他机器人，你看不到也不能回应。";
    utf8 "- 如果消息 @ 了你，你必须回应。";
    utf8 "- 如果消息是公开的（无 @），你可以选择回应（根据系统设置）。";
    utf8 "回复时直接发表你的观点，不要在开头添加你的名字或任何前缀，你的名字会自动标记。"
  ].

(** [f"已达到最大AI对话轮次({max_turns})。请用户发送消息以继续。"] *)
Definition limit_reached_message (max_turns : Z) : Message :=
  Message_untargeted SYSTEM
    (utf8 "已达到最大AI对话轮次(" ++ py_str_int max_turns
       ++ utf8 ")。请用户发送消息以继续。") system_name.

(** [f"已达到最大AI对话轮次({max_turns})。对话已停止。"] *)
Definition limit_stopped_message (max_turns : Z) : Message :=
  Message_untargeted SYSTEM
    (utf8 "已达到最大AI对话轮次(" ++ py_str_int max_turns
       ++ utf8 ")。对话已停止。") system_name.

(** [f"{robot_name} 响应失败: {str(e)}"] *)
Definition error_message (robot_name e : pystr) : Message :=
  Message_untargeted SYSTEM (robot_name ++ utf8 " 响应失败: " ++ e) system_name.

(** The two notices of the turn limit start with this text. *)
Definition is_limit_notice (msg : Message) : bool :=
  bool_decide (role msg = SYSTEM)
  && startswith (content msg) (utf8 "已达到最大AI对话轮次").

(** What the entries of the configuration window hold when
    [save_all_config] runs.  [timeout_var] and [max_turns_var] are given
    as the outcome of [int(...)] on the text: [None] when [int] raises
    [ValueError]. *)
Record ConfigForm : Type := mkForm {
  api_key_var : pystr;
  base_url_var : pystr;
  model_var : pystr;
  timeout_var : option Z;
  proxy_var : pystr;
  allow_ai_conv_var : bool;
  max_turns_var : option Z;
  robot_vars : list (pystr * bool)
}.

(** Which message box [save_all_config] shows. *)
Inductive SaveOutcome : Type := Saved | InvalidTimeout | InvalidMaxTurns.

(** ** The engine *)

Section Engine.
Context `{UD : UnicodeData} `{PD : Pydantic}.

(** The completion client, [AIClient.chat_completion(request, robot_name)]:
    the remote service decides the outcome. *)
Variable chat_completion : ChatCompletionRequest -> pystr -> Completion.

(** *** [parse_mention] *)

Definition parse_mention (g : GUI) (content : pystr) : pystr * option pystr :=
  match re_match_mention content with
  | Some (target, _) =>
    if dict_has target (active_robots g)
    then (re_sub_mention content, Some target)
    else (content, None)
  | None => (content, None)
  end.

(** *** [load_all_robots_on_start] *)

(** The first loop: the enabled robots become active and are listed. *)
Fixpoint load_enabled (all_robots : list (pystr * RobotConfig))
    (active : list (pystr * RobotConfig)) (robot_list_info : pystr)
  : list (pystr * RobotConfig) * pystr :=
  match all_robots with
  | [] => (active, robot_list_info)
  | (robot_name, robot_config) :: rest =>
    if enabled robot_config
    then load_enabled rest (dict_set robot_name robot_config active)
           (robot_list_info ++ roster_line robot_name)
    else load_enabled rest active robot_list_info
  end.

(** The second loop: what is appended to the history for one robot. *)
Definition seed_messages (robot_list_info : pystr)
    (robot : pystr * RobotConfig) : list Message :=
  let '(robot_name, robot_config) := robot in
  (if truthy (prompt robot_config)
   then [Message_untargeted SYSTEM
           (persona_text robot_name (prompt robot_config)) system_name]
   else [])
  ++ [Message_untargeted SYSTEM (robot_list_info ++ group_rules robot_name)
        system_name].

Definition load_all_robots_on_start (g : GUI) : GUI :=
  let all_robots := robot_dir g in
  let user_name := user_name (main_config g) in
  let '(active, robot_list_info) :=
    load_enabled all_robots (active_robots g) (roster_head user_name) in
  let g := set_active_robots active g in
  set_chat_history
    (chat_history g ++ flat_map (seed_messages robot_list_info) active) g.

(** *** [add_message_to_history] *)

Definition add_message_to_history (msg : Message) (g : GUI) : GUI :=
  set_chat_history (chat_history g ++ [msg]) g.

(** *** [trigger_ai_responses] *)

(** The four [continue]s of the first loop. *)
Definition responds (last_message : Message) (is_ai_message : bool)
    (robot : pystr * RobotConfig) : bool :=
  let '(robot_name, robot_config) := robot in
  if bool_decide (robot_name = name last_message) then false
  else if truthy_opt (target last_message)
          && negb (bool_decide (target last_message = Some robot_name))
  then false
  else if is_ai_message && negb (auto_respond_to_ai robot_config) then false
  else if negb (truthy_opt (target last_message))
          && negb (auto_respond_to_all robot_config)
  then false
  else true.

Definition responding_robots (g : GUI) (last_message : Message)
    (is_ai_message : bool) : list (pystr * RobotConfig) :=
  filter (responds last_message is_ai_message) (active_robots g).

(** [system_prompt], with the list of the members of the group. *)
Definition system_prompt (g : GUI) (robot_name : pystr)
    (robot_config : RobotConfig) : pystr :=
  (if truthy (prompt robot_config)
   then utf8 "你的名字是" ++ robot_name ++ utf8 "。" ++ prompt robot_config ++ nl
   else utf8 "你的名字是" ++ robot_name ++ utf8 "。" ++ nl)
  ++ (roster_head (user_name (main_config g))
        ++ flat_map (fun rn => roster_line (fst rn)) (active_robots g))
  ++ group_rules robot_name.

(** The branches of the loop over [self.chat_history]. *)
Definition visible (robot_name : pystr) (msg : Message) : bool :=
  if bool_decide (role msg = SYSTEM) then
    if startswith (content msg) persona_marker then false else true
  else if bool_decide (target msg = None) then true
  else if bool_decide (target msg = Some robot_name) then true
  else if bool_decide (name msg = robot_name) then true
  else false.

Definition robot_specific_history (g : GUI) (robot_name : pystr)
    (robot_config : RobotConfig) : list Message :=
  Message_untargeted SYSTEM (system_prompt g robot_name robot_config) system_name
  :: filter (visible robot_name) (chat_history g).

(** What is done with the first choice of a response. *)
Definition reply_message (g : GUI) (robot_name : pystr)
    (ai_response : Message) : Message :=
  let '(content, target) := parse_mention g (content ai_response) in
  let name_prefix := robot_name ++ utf8 ":" in
  let content :=
    if startswith content name_prefix
    then lstrip (drop (length name_prefix) content)
    else content in
  mkMessage ASSISTANT content robot_name target.

(** The [try] block of one responder: the request is built and sent. *)
Definition attempt (g : GUI) (robot_name : pystr) (robot_config : RobotConfig)
  : list Event * Completion :=
  match ai_client g with
  | None => ([], Raised (utf8 "'NoneType' object has no attribute 'model'"))
  | Some client =>
    let request :=
      mkRequest (model client) (robot_specific_history g robot_name robot_config) in
    ([Call robot_name request], chat_completion request robot_name)
  end.

(** What one responder puts on the queue. *)
Definition response_messages (g : GUI) (robot_name : pystr)
    (outcome : Completion) : list Message :=
  match outcome with
  | Returned (choice :: _) => [reply_message g robot_name choice]
  | Returned [] => []
  | Raised e => [error_message robot_name e]
  end.

Definition respond (robot : pystr * RobotConfig) (g : GUI) : GUI :=
  let '(robot_name, robot_config) := robot in
  let '(events, outcome) := attempt g robot_name robot_config in
  let g := foldl (fun g e => record_event e g) g events in
  foldl (fun g m => message_queue_put m g) g
    (response_messages g robot_name outcome).

(** The second loop, with its [break]. *)
Fixpoint respond_loop (max_turns : Z)
    (responding : list (pystr * RobotConfig)) (g : GUI) : GUI :=
  match responding with
  | [] => g
  | robot :: rest =>
    if negb (infinite_loop g) && (max_turns <? ai_conversation_turns g)%Z
    then message_queue_put (limit_stopped_message max_turns) g
    else respond_loop max_turns rest (respond robot g)
  end.

Definition trigger_ai_responses (last_message : Message)
    (is_ai_message : bool) (g : GUI) : GUI :=
  let g := set_ai_processing true g in
  let g := record_event (Round last_message is_ai_message) g in
  let max_turns := max_ai_conversation_turns (main_config g) in
  let g :=
    if is_ai_message
    then set_ai_conversation_turns (ai_conversation_turns g + 1)%Z g
    else g in
  let g := respond_loop max_turns (responding_robots g last_message is_ai_message) g in
  set_ai_processing false g.

(** *** [trigger_ai_response_to_ai_message]

    The boolean tells whether the thread that runs
    [trigger_ai_responses(ai_message, True)] is started. *)
Definition trigger_ai_response_to_ai_message (ai_message : Message) (g : GUI)
  : GUI * bool :=
  if negb (truthy_list (active_robots g)) || negb (is_Some_b (ai_client g))
  then (g, false)
  else
    let max_turns := max_ai_conversation_turns (main_config g) in
    if negb (infinite_loop g) && (max_turns <=? ai_conversation_turns g)%Z
    then (message_queue_put (limit_reached_message max_turns) g, false)
    else (g, true).

(** *** [start_message_processor]

    One turn of the loop of [process_messages], for the message [msg]
    that [self.message_queue.get] returned; the boolean tells whether
    [trigger_ai_response_to_ai_message(msg)] is scheduled. *)
Definition process_message (msg : Message) (g : GUI) : GUI * bool :=
  let max_turns := max_ai_conversation_turns (main_config g) in
  let scheduled :=
    if bool_decide (role msg = ASSISTANT)
       && allow_ai_conversations (main_config g)
       && (infinite_loop g || (ai_conversation_turns g <? max_turns)%Z)
    then negb (ai_processing g)
    else false in
  (add_message_to_history msg g, scheduled).

(** *** [send_message]

    The result holds the message that was put and whether the thread
    that runs [trigger_ai_responses(user_message)] is started. *)
Definition send_message (message_entry user_name_var : pystr) (g : GUI)
  : GUI * option (Message * bool) :=
  let user_input := strip message_entry in
  if negb (truthy user_input) then (g, None)
  else
    let user_name :=
      if truthy (strip user_name_var) then strip user_name_var
      else default_user_name in
    let g := set_ai_conversation_turns 0%Z g in
    let '(content, target) := parse_mention g user_input in
    let user_message := mkMessage USER content user_name target in
    let g := message_queue_put user_message g in
    (g, Some (user_message,
              truthy_list (active_robots g) && is_Some_b (ai_client g))).

(** *** One thread at a time

    The queue consumer is given [msg]; the callback it schedules runs,
    and the round that the callback starts runs to its end. *)
Definition deliver (g : GUI) (msg : Message) : GUI :=
  let '(g, scheduled) := process_message msg g in
  if scheduled then
    let '(g, started) := trigger_ai_response_to_ai_message msg g in
    if started then trigger_ai_responses msg true g else g
  else g.

(** A message of the user: [send_message], the consumer, the round. *)
Definition human_turn (message_entry user_name_var : pystr) (g : GUI) : GUI :=
  match send_message message_entry user_name_var g with
  | (g, Some (user_message, started)) =>
    let g := fst (process_message user_message g) in
    if started then trigger_ai_responses user_message false g else g
  | (g, None) => g
  end.

(** *** [init_ai_client] and [save_all_config] *)

Definition config_set_api_key (v : pystr) (c : MainConfig) : MainConfig :=
  mkConfig v (base_url c) (config_model c) (timeout c) (proxy c)
    (default_robots c) (user_name c) (allow_ai_conversations c)
    (max_ai_conversation_turns c).

Definition config_set_base_url (v : pystr) (c : MainConfig) : MainConfig :=
  mkConfig (api_key c) v (config_model c) (timeout c) (proxy c)
    (default_robots c) (user_name c) (allow_ai_conversations c)
    (max_ai_conversation_turns c).

Definition config_set_model (v : pystr) (c : MainConfig) : MainConfig :=
  mkConfig (api_key c) (base_url c) v (timeout c) (proxy c)
    (default_robots c) (user_name c) (allow_ai_conversations c)
    (max_ai_conversation_turns c).

Definition config_set_timeout (v : Z) (c : MainConfig) : MainConfig :=
  mkConfig (api_key c) (base_url c) (config_model c) v (proxy c)
    (default_robots c) (user_name c) (allow_ai_conversations c)
    (max_ai_conversation_turns c).

Definition config_set_proxy (v : pystr) (c : MainConfig) : MainConfig :=
  mkConfig (api_key c) (base_url c) (config_model c) (timeout c) v
    (default_robots c) (user_name c) (allow_ai_conversations c)
    (max_ai_conversation_turns c).

Definition config_set_default_robots (v : list pystr) (c : MainConfig)
  : MainConfig :=
  mkConfig (api_key c) (base_url c) (config_model c) (timeout c) (proxy c)
    v (user_name c) (allow_ai_conversations c) (max_ai_conversation_turns c).

Definition config_set_allow_ai_conversations (v : bool) (c : MainConfig)
  : MainConfig :=
  mkConfig (api_key c) (base_url c) (config_model c) (timeout c) (proxy c)
    (default_robots c) (user_name c) v (max_ai_conversation_turns c).

Definition config_set_max_ai_conversation_turns (v : Z) (c : MainConfig)
  : MainConfig :=
  mkConfig (api_key c) (base_url c) (config_model c) (timeout c) (proxy c)
    (default_robots c) (user_name c) (allow_ai_conversations c) v.

(** [self.config_manager.set(key, value)] *)
Definition config_manager_set (f : MainConfig -> MainConfig) (g : GUI) : GUI :=
  set_main_config (f (main_config g)) g.

(** The client is replaced when pydantic accepts the fields
    ([base_url: HttpUrl], [timeout: int = Field(30, ge=1)]). *)
Definition init_ai_client (g : GUI) : GUI :=
  let c := main_config g in
  if is_http_url (base_url c) && (1 <=? timeout c)%Z
  then set_ai_client
         (Some (mkClient (api_key c) (base_url c) (timeout c) (proxy c)
                  (config_model c))) g
  else g.

Definition save_all_config (form : ConfigForm) (g : GUI) : GUI * SaveOutcome :=
  let g := config_manager_set (config_set_api_key (api_key_var form)) g in
  let g := config_manager_set (config_set_base_url (base_url_var form)) g in
  let g := config_manager_set (config_set_model (model_var form)) g in
  match timeout_var form with
  | None => (g, InvalidTimeout)
  | Some timeout =>
    if (timeout <=? 0)%Z then (g, InvalidTimeout)
    else
      let g := config_manager_set (config_set_timeout timeout) g in
      let g := config_manager_set (config_set_proxy (proxy_var form)) g in
      let g := config_manager_set
                 (config_set_allow_ai_conversations (allow_ai_conv_var form)) g in
      match max_turns_var form with
      | None => (g, InvalidMaxTurns)
      | Some max_turns =>
        if (max_turns <? 1)%Z then (g, InvalidMaxTurns)
        else
          let g := config_manager_set
                     (config_set_max_ai_conversation_turns max_turns) g in
          let new_defaults :=
            map fst (filter (fun nv => snd nv = true) (robot_vars form)) in
          let g := config_manager_set (config_set_default_robots new_defaults) g in
          let g := set_active_robots [] g in
          let g := load_all_robots_on_start g in
          let g := init_ai_client g in
          (g, Saved)
      end
  end.

End Engine.

(** ** The mention rule as the specification words it *)

Section MentionForm.
Context `{UD : UnicodeData}.

(** [content] is [@t], one whitespace character [ws], then [rest], and
    [t] is a non-empty run of word characters. *)
Definition mention_form (content t : pystr) (ws : N) (rest : pystr) : Prop :=
  content = 64 :: t ++ ws :: rest
  /\ t <> [] /\ forallb is_word t = true /\ py_isspace ws = true.

End MentionForm.

(** The addressing rule of the eligible responders as the specification
    words it: the sender is excluded; a target must be matched; without a
    target the robot answers public messages, or answers robots when the
    round is autonomous and the message comes from a robot. *)
Definition eligible_as_specified (last_message : Message)
    (is_autonomous : bool) (robot : pystr * RobotConfig) : Prop :=
  fst robot <> name last_message
  /\ match target last_message with
     | Some t => fst robot = t
     | None =>
       auto_respond_to_all (snd robot) = true
       \/ (is_autonomous = true /\ role last_message = ASSISTANT
           /\ auto_respond_to_ai (snd robot) = true)
     end.

#[global] Instance eligible_as_specified_dec m b r :
  Decision (eligible_as_specified m b r).
Proof. unfold eligible_as_specified. destruct (target m); apply _. Defined.

(** ** Sample data *)

Definition robot (n : string) (to_ai to_all : bool) (p : string)
  : pystr * RobotConfig :=
  (utf8 n, mkRobot (utf8 n) (utf8 p) None true to_ai to_all None).

Definition sample_config (max_turns : Z) : MainConfig :=
  mkConfig (utf8 "sk-old") (utf8 "https://api.openai.com/v1")
    (utf8 "gpt-3.5-turbo") 30%Z [] [] (utf8 "Eve") true max_turns.

Definition sample_client : AIClient :=
  mkClient (utf8 "sk-old") (utf8 "https://api.openai.com/v1") 30%Z []
    (utf8 "gpt-3.5-turbo").

(** A running chat: the robots are active, nothing is queued, no round
    runs, the turn counter is at [0] and the endless loop is off. *)
Definition room (max_turns : Z) (robots : list (pystr * RobotConfig))
    (history : list Message) : GUI :=
  mkGUI (sample_config max_turns) robots robots history (Some sample_client)
    0%Z false false [] false [].

Definition Ann : pystr := utf8 "Ann".
Definition Bob : pystr := utf8 "Bob".

(** Ann answers robots and public messages; Bob and Carol answer robots
    only; the deaf Bob answers neither; the chatty Bob answers both. *)
Definition ann : pystr * RobotConfig := robot "Ann" true true "".
Definition bob : pystr * RobotConfig := robot "Bob" true false "".
Definition bob_deaf : pystr * RobotConfig := robot "Bob" false false "".
Definition bob_chatty : pystr * RobotConfig := robot "Bob" true true "".
Definition carol : pystr * RobotConfig := robot "Carol" true false "".

(** A public message of a robot. *)
Definition said (who : pystr) (what : string) : Message :=
  mkMessage ASSISTANT (utf8 what) who None.

(** A character table for the samples: the CJK unified ideographs are
    the alphanumeric characters outside ASCII. *)
Definition cjk_unicode : UnicodeData.
Proof.
  refine {| uni_isalnum := cjk_isalnum |}.
  unfold cjk_isalnum, py_isspace. intros c Hw.
  apply not_true_is_false. intros Hs.
  rewrite ?orb_true_iff, ?andb_true_iff, ?N.leb_le, ?N.eqb_eq in Hw.
  rewrite ?orb_true_iff, ?andb_true_iff, ?N.leb_le, ?N.eqb_eq in Hs.
  lia.
Defined.

(** A validation of addresses for the samples. *)
Definition http_prefix : Pydantic :=
  {| is_http_url := fun url => startswith url (utf8 "http") |}.

(** A service that answers [ok] to every robot. *)
Definition ok_service (_ : ChatCompletionRequest) (robot_name : pystr)
  : Completion :=
  Returned [mkMessage ASSISTANT (utf8 "ok") robot_name None].

(** A service that fails for [Ann] and answers [ok] to the others. *)
Definition service_down_for_Ann (_ : ChatCompletionRequest)
    (robot_name : pystr) : Completion :=
  if bool_decide (robot_name = Ann) then Raised (utf8 "timeout")
  else Returned [mkMessage ASSISTANT (utf8 "ok") robot_name None].

(** A service whose answer to [Ann] starts with her name and then
    addresses [Bob]. *)
Definition service_echoing_name (_ : ChatCompletionRequest)
    (robot_name : pystr) : Completion :=
  if bool_decide (robot_name = Ann)
  then Returned [mkMessage ASSISTANT (utf8 "Ann: @Bob text") robot_name None]
  else Returned [].

(** A chat before [load_all_robots_on_start]: the robots are on disk. *)
Definition fresh (robots : list (pystr * RobotConfig)) : GUI :=
  mkGUI (sample_config 10) robots [] [] None 0%Z false false [] false [].

(** A form that asks for a new key and for a turn limit. *)
Definition sample_form (max_turns : option Z) : ConfigForm :=
  mkForm (utf8 "sk-new") (utf8 "https://api.openai.com/v1")
    (utf8 "gpt-4") (Some 30%Z) [] true max_turns [].

(** ** Observing a run *)

(** [g] after some messages were put and some events happened. *)
Definition with_output (g : GUI) (puts : list Message) (events : list Event)
  : GUI :=
  mkGUI (main_config g) (robot_dir g) (active_robots g) (chat_history g)
    (ai_client g) (ai_conversation_turns g) (infinite_loop g) (dev_mode g)
    (message_queue g ++ puts) (ai_processing g) (trace g ++ events).

Definition is_round (e : Event) : bool :=
  match e with Round _ _ => true | Call _ _ => false end.

(** The number of dispatch rounds in a trace. *)
Definition rounds_started (t : list Event) : nat :=
  length (filter is_round t).

(** The number of notices of the turn limit in a queue. *)
Definition limit_notices (q : list Message) : nat :=
  length (filter is_limit_notice q).

(** The state in which the consumer lets a robot's message start a
    round: robots talk to each other, no round runs, there are robots and
    a client. *)
Definition ready (g : GUI) : Prop :=
  allow_ai_conversations (main_config g) = true
  /\ ai_processing g = false
  /\ active_robots g <> []
  /\ ai_client g <> None.

(** What a responder puts: the reply of the robot or the report of its
    failure. *)
Definition is_response (m : Message) : Prop :=
  role m = ASSISTANT \/ exists robot_name e, m = error_message robot_name e.

(** The rule of [responds], said at once. *)
Definition eligible_in_code (last_message : Message) (is_ai_message : bool)
    (robot : pystr * RobotConfig) : Prop :=
  fst robot <> name last_message
  /\ (truthy_opt (target last_message) = true ->
      target last_message = Some (fst robot))
  /\ (is_ai_message = true -> auto_respond_to_ai (snd robot) = true)
  /\ (truthy_opt (target last_message) = false ->
      auto_respond_to_all (snd robot) = true).

#[global] Instance eligible_in_code_dec m b r :
  Decision (eligible_in_code m b r).
Proof. unfold eligible_in_code. apply _. Defined.

(** The turn counter a round works with. *)
Definition turns_in_round (is_ai_message : bool) (g : GUI) : Z :=
  (if is_ai_message then ai_conversation_turns g + 1
   else ai_conversation_turns g)%Z.

(** ** The rest of the window *)

Definition set_infinite_loop (b : bool) (g : GUI) : GUI :=
  mkGUI (main_config g) (robot_dir g) (active_robots g) (chat_history g)
    (ai_client g) (ai_conversation_turns g) b (dev_mode g)
    (message_queue g) (ai_processing g) (trace g).

Definition set_dev_mode (b : bool) (g : GUI) : GUI :=
  mkGUI (main_config g) (robot_dir g) (active_robots g) (chat_history g)
    (ai_client g) (ai_conversation_turns g) (infinite_loop g) b
    (message_queue g) (ai_processing g) (trace g).

Definition set_robot_dir (d : list (pystr * RobotConfig)) (g : GUI) : GUI :=
  mkGUI (main_config g) d (active_robots g) (chat_history g)
    (ai_client g) (ai_conversation_turns g) (infinite_loop g) (dev_mode g)
    (message_queue g) (ai_processing g) (trace g).

Definition config_set_user_name (v : pystr) (c : MainConfig) : MainConfig :=
  mkConfig (api_key c) (base_url c) (config_model c) (timeout c) (proxy c)
    (default_robots c) v (allow_ai_conversations c)
    (max_ai_conversation_turns c).

(** [del d[k]] *)
Definition dict_del {V : Type} (k : pystr) (d : list (pystr * V))
  : list (pystr * V) :=
  filter (fun kv => fst kv <> k) d.

(** [l.remove(x)]: the first occurrence goes. *)
Fixpoint list_remove (x : pystr) (l : list pystr) : list pystr :=
  match l with
  | [] => []
  | y :: l' => if decide (y = x) then l' else y :: list_remove x l'
  end.

(** *** [toggle_infinite_loop] and [toggle_dev_mode]: the state of the
    check box is copied. *)
Definition toggle_infinite_loop (infinite_loop_var : bool) (g : GUI) : GUI :=
  set_infinite_loop infinite_loop_var g.

Definition toggle_dev_mode (dev_mode_var : bool) (g : GUI) : GUI :=
  set_dev_mode dev_mode_var g.

(** *** [clear_chat] *)

(** The test of the list comprehension. *)
Definition is_persona_reminder (msg : Message) : bool :=
  bool_decide (role msg = SYSTEM) && startswith (content msg) persona_marker.

Definition clear_chat (g : GUI) : GUI :=
  let g := set_ai_conversation_turns 0%Z g in
  set_chat_history (filter is_persona_reminder (chat_history g)) g.

(** *** [save_user_name] *)

(** Which message box is shown. *)
Inductive NameOutcome : Type := NameSaved | NameEmpty | NameTaken.

Definition save_user_name (user_name_var : pystr) (g : GUI)
  : GUI * NameOutcome :=
  let new_name := strip user_name_var in
  if negb (truthy new_name) then (g, NameEmpty)
  else if dict_has new_name (active_robots g) then (g, NameTaken)
  else (set_main_config (config_set_user_name new_name (main_config g)) g,
        NameSaved).

(** *** [ConfigManager.save_robot] and the [save_robot] of the editor

    The robot directory answers three questions: which files it holds
    ([list_robots]), what [load_robot] reads from one of them, and
    whether the file could be written. *)
Record Directory : Type := mkDirectory {
  list_robots : list pystr;
  load_robot : pystr -> option RobotConfig;
  written : bool
}.

Definition config_manager_save_robot (dir : Directory)
    (robot_config : RobotConfig) (g : GUI) : bool :=
  if negb (truthy (strip (rc_name robot_config))) then false
  else if bool_decide (rc_name robot_config = user_name (main_config g))
  then false
  else if bool_decide (rc_name robot_config ∈ list_robots dir)
          && match load_robot dir (rc_name robot_config) with
             | None => true
             | Some existing_config =>
               negb (bool_decide (rc_name existing_config
                                  = rc_name robot_config))
             end
  then false
  else written dir.

(** The entries of the robot editor. *)
Record RobotForm : Type := mkRobotForm {
  name_var : pystr;
  color_var : pystr;
  prompt_file_var : pystr;
  prompt_text : pystr;
  enabled_var : bool;
  auto_respond_var : bool;
  auto_respond_all_var : bool
}.

(** The configuration that the editor builds. *)
Definition new_config (form : RobotForm) : RobotConfig :=
  mkRobot (strip (name_var form)) (strip (prompt_text form))
    (if truthy (prompt_file_var form) then Some (prompt_file_var form)
     else None)
    (enabled_var form) (auto_respond_var form) (auto_respond_all_var form)
    (Some (color_var form)).

(** The boolean tells whether the robot was saved. *)
Definition editor_save_robot (is_new : bool) (dir : Directory)
    (form : RobotForm) (g : GUI) : GUI * bool :=
  let name := strip (name_var form) in
  if negb (truthy name) then (g, false)
  else if bool_decide (name = user_name (main_config g)) then (g, false)
  else if is_new && bool_decide (name ∈ list_robots dir) then (g, false)
  else if config_manager_save_robot dir (new_config form) g then
    if enabled (new_config form)
    then (set_active_robots
            (dict_set name (new_config form) (active_robots g)) g, true)
    else if dict_has name (active_robots g)
    then (set_active_robots (dict_del name (active_robots g)) g, true)
    else (g, true)
  else (g, false).

(** *** [ConfigManager.delete_robot] and [delete_selected_robot]

    [file_exists] and [removed] tell whether the file of the robot was
    there and whether [os.remove] went through. *)
Definition config_manager_delete_robot (file_exists removed : bool)
    (robot_name : pystr) (g : GUI) : GUI * bool :=
  if negb file_exists then (g, false)
  else if negb removed then (g, false)
  else
    let default_robots := default_robots (main_config g) in
    if bool_decide (robot_name ∈ default_robots)
    then (set_main_config
            (mkConfig (api_key (main_config g)) (base_url (main_config g))
               (config_model (main_config g)) (timeout (main_config g))
               (proxy (main_config g)) (list_remove robot_name default_robots)
               (user_name (main_config g))
               (allow_ai_conversations (main_config g))
               (max_ai_conversation_turns (main_config g))) g, true)
    else (g, true).

(** The robot [robot_name] is selected and the user confirms. *)
Definition delete_selected_robot (file_exists removed : bool)
    (robot_name : pystr) (g : GUI) : GUI :=
  let '(g1, deleted) :=
    config_manager_delete_robot file_exists removed robot_name g in
  if deleted then
    if dict_has robot_name (active_robots g1)
    then set_active_robots (dict_del robot_name (active_robots g1)) g1
    else g1
  else g1.

(** The name of the user in the configuration is not the name of an
    active robot. *)
Definition names_apart (g : GUI) : Prop :=
  dict_has (user_name (main_config g)) (active_robots g) = false.

(** The fields of the two numeric entries are valid. *)
Definition valid_numbers (form : ConfigForm) : Prop :=
  exists t n, timeout_var form = Some t /\ (0 < t)%Z
    /\ max_turns_var form = Some n /\ (1 <= n)%Z.

(** A System message that carries no target, or a message of another
    role. *)
Definition plain (m : Message) : Prop := role m = SYSTEM -> target m = None.

(** What holds of the window whatever happened to it. *)
Definition sound (g : GUI) : Prop :=
  Forall plain (chat_history g)
  /\ Forall plain (message_queue g)
  /\ NoDup (map fst (active_robots g)).

(** ** The window at work

    What the user and the threads do to the window, one step at a time.
    The robot directory is outside the program: [Directory_changed] is a
    step of its own. *)
Inductive Op : Type :=
| Send (message_entry user_name_var : pystr)
| Consume (msg : Message)
| Callback (ai_message : Message)
| Dispatch (last_message : Message) (is_ai_message : bool)
| Load
| Init_client
| Clear
| Save_config (form : ConfigForm)
| Save_user_name (user_name_var : pystr)
| Edit_robot (is_new : bool) (dir : Directory) (form : RobotForm)
| Delete_robot (file_exists removed : bool) (robot_name : pystr)
| Toggle_loop (infinite_loop_var : bool)
| Toggle_dev (dev_mode_var : bool)
| Directory_changed (d : list (pystr * RobotConfig)).

(** The window when [__init__] has set its fields. *)
Definition initial (config : MainConfig) (dir : list (pystr * RobotConfig))
  : GUI :=
  mkGUI config dir [] [] None 0%Z false false [] false [].

Section Steps.
Context `{UD : UnicodeData} `{PD : Pydantic}.
Variable chat_completion : ChatCompletionRequest -> pystr -> Completion.

Definition run (op : Op) (g : GUI) : GUI :=
  match op with
  | Send message_entry user_name_var =>
    fst (send_message message_entry user_name_var g)
  | Consume msg => fst (process_message msg g)
  | Callback ai_message => fst (trigger_ai_response_to_ai_message ai_message g)
  | Dispatch last_message is_ai_message =>
    trigger_ai_responses chat_completion last_message is_ai_message g
  | Load => load_all_robots_on_start g
  | Init_client => init_ai_client g
  | Clear => clear_chat g
  | Save_config form => fst (save_all_config form g)
  | Save_user_name user_name_var => fst (save_user_name user_name_var g)
  | Edit_robot is_new dir form => fst (editor_save_robot is_new dir form g)
  | Delete_robot file_exists removed robot_name =>
    delete_selected_robot file_exists removed robot_name g
  | Toggle_loop b => toggle_infinite_loop b g
  | Toggle_dev b => toggle_dev_mode b g
  | Directory_changed d => set_robot_dir d g
  end.

(** The consumer takes what was put on the queue; the other steps are
    free. *)
Definition allowed (op : Op) (g : GUI) : Prop :=
  match op with
  | Consume msg => msg ∈ message_queue g
  | _ => True
  end.

Inductive reachable : GUI -> Prop :=
| reachable_initial config dir : reachable (initial config dir)
| reachable_step op g : reachable g -> allowed op g -> reachable (run op g).

End Steps.

(** ** More sample data *)

(** A robot of the directory that is switched off. *)
Definition dan_off : pystr * RobotConfig :=
  (utf8 "Dan", mkRobot (utf8 "Dan") [] None false true true None).

(** A directory that holds Ann and Bob, reads none of them and writes. *)
Definition sample_directory : Directory :=
  mkDirectory [Ann; Bob] (fun _ => None) true.

(** The editor for a robot Carol, with blanks around the name. *)
Definition carol_form (on : bool) : RobotForm :=
  mkRobotForm (utf8 " Carol ") (utf8 "#228b22") [] (utf8 "be brief") on
    true false.

(** The editor for a robot whose name holds a hyphen. *)
Definition bob2_form : RobotForm :=
  mkRobotForm (utf8 "Bob-2") (utf8 "#1e90ff") [] (utf8 "be brief") true
    true false.

(** A service whose answer to Ann addresses Bob. *)
Definition service_addressing_Bob (_ : ChatCompletionRequest)
    (robot_name : pystr) : Completion :=
  if bool_decide (robot_name = Ann)
  then Returned [mkMessage ASSISTANT (utf8 "@Bob hi") robot_name None]
  else Returned [].

(** The window after the start, a round for a message of the user in
    which Ann addresses Bob, and the consumer taking her message. *)
Definition hello_from_Eve : Message :=
  mkMessage USER (utf8 "hello") (utf8 "Eve") None.

Definition ann_to_bob : Message :=
  mkMessage ASSISTANT (utf8 "hi") Ann (Some Bob).

(** The steps of a short conversation: the window starts, which loads
    the robots and creates the client; a round runs for a message of the
    user, in which Ann addresses Bob; the consumer takes her message. *)
Definition conversation_steps : list Op :=
  [Load; Init_client; Dispatch hello_from_Eve false; Consume ann_to_bob].

Definition conversation : GUI :=
  foldl (fun g op =>
           run (UD := cjk_unicode) (PD := http_prefix)
             service_addressing_Bob op g)
    (initial (sample_config 10) [ann; bob]) conversation_steps.

Definition started : GUI :=
  load_all_robots_on_start
    (mkGUI (sample_config 10) [ann; bob] [] [] (Some sample_client) 0%Z
       false false [] false []).

(** ** Properties *)

Section StringFacts.
Context `{UD : UnicodeData}.

Lemma ascii_word_not_space c : ascii_word c = true -> py_isspace c = false.
Proof.
  unfold ascii_word, py_isspace. intros Hw.
  apply not_true_is_false. intros Hs.
  rewrite ?orb_true_iff, ?andb_true_iff, ?N.leb_le, ?N.eqb_eq in Hw.
  rewrite ?orb_true_iff, ?andb_true_iff, ?N.leb_le, ?N.eqb_eq in Hs.
  lia.
Qed.

Lemma is_word_not_space c : is_word c = true -> py_isspace c = false.
Proof.
  unfold is_word. destruct (c <? 128).
  - apply ascii_word_not_space.
  - apply uni_isalnum_not_space.
Qed.

Lemma space_not_word c : py_isspace c = true -> is_word c = false.
Proof.
  intros Hs. destruct (is_word c) eqn:Hw; [|reflexivity].
  apply is_word_not_space in Hw. congruence.
Qed.

(** A run of word characters followed by a whitespace character is
    matched whole. *)
Lemma match_word_space_run t ws rest :
  t <> [] -> forallb is_word t = true -> py_isspace ws = true ->
  match_word_space (t ++ ws :: rest) = Some (t, rest).
Proof.
  intros Hne Hw Hs. induction t as [|c t IH]; [congruence|].
  simpl in Hw. apply andb_true_iff in Hw as [Hc Ht].
  cbn [app match_word_space]. rewrite Hc.
  destruct t as [|c' t].
  - cbn [app match_word_space]. rewrite (space_not_word ws Hs), Hs. reflexivity.
  - rewrite IH; [reflexivity|congruence|exact Ht].
Qed.

(** What is matched is such a run. *)
Lemma match_word_space_inv s t rest :
  match_word_space s = Some (t, rest) ->
  exists ws, s = t ++ ws :: rest
    /\ t <> [] /\ forallb is_word t = true /\ py_isspace ws = true.
Proof.
  revert t rest. induction s as [|c s IH]; intros t rest; [discriminate|].
  cbn [match_word_space]. destruct (is_word c) eqn:Hc; [|discriminate].
  destruct (match_word_space s) as [[w r]|] eqn:Hm.
  - intros [= <- <-]. destruct (IH w r eq_refl) as (ws & -> & _ & Hw & Hs).
    exists ws. cbn [forallb]. rewrite Hc, Hw. repeat split; congruence.
  - destruct s as [|d r]; [discriminate|].
    destruct (py_isspace d) eqn:Hd; [|discriminate].
    intros [= <- <-]. exists d. cbn [forallb]. rewrite Hc.
    repeat split; congruence.
Qed.

Lemma re_match_mention_form content t rest :
  re_match_mention content = Some (t, rest)
  <-> exists ws, mention_form content t ws rest.
Proof.
  unfold re_match_mention, mention_form. split.
  - destruct content as [|c s]; [discriminate|].
    destruct (N.eq_dec c 64) as [->|Hc].
    + intros (ws & -> & H)%match_word_space_inv. exists ws. split; [reflexivity|exact H].
    + destruct c as [|p]; [discriminate|].
      repeat (destruct p as [p|p|]; try discriminate); congruence.
  - intros (ws & -> & Hne & Hw & Hs). apply match_word_space_run; assumption.
Qed.

Lemma startswith_app p s : startswith (p ++ s) p = true.
Proof.
  induction p as [|a p IH]; [reflexivity|].
  cbn [app startswith]. rewrite N.eqb_refl. exact IH.
Qed.

Lemma startswith_head a b s p : a <> b -> startswith (b :: s) (a :: p) = false.
Proof.
  intros Hab. cbn [startswith]. apply N.eqb_neq in Hab. rewrite Hab. reflexivity.
Qed.

End StringFacts.

Section MentionParser.
Context `{UD : UnicodeData}.

Lemma parse_mention_matched g content t rest :
  re_match_mention content = Some (t, rest) ->
  parse_mention g content =
    if dict_has t (active_robots g) then (rest, Some t) else (content, None).
Proof.
  intros Hm. unfold parse_mention, re_sub_mention. rewrite Hm. reflexivity.
Qed.

(** C3 (as amended): [parse_mention] recognises [@name] followed by one
    whitespace character at the start of the text.  When the name is an
    active robot it is the target and the cleaned text is everything after
    that whitespace character, unchanged: nothing is trimmed.  When the
    name is not an active robot, or the text has no such token, there is
    no target and the cleaned text is the text as it was given.  The
    three examples of the specification hold. *)
Theorem parse_mention_contract :
  (forall (g : GUI) (content : pystr),
     (forall t ws rest, mention_form content t ws rest ->
        parse_mention g content =
          if dict_has t (active_robots g) then (rest, Some t)
          else (content, None))
     /\ ((forall t ws rest, ~ mention_form content t ws rest) ->
         parse_mention g content = (content, None)))
  /\ parse_mention (room 10 [robot "Bob" true false ""; robot "Ann" true false ""] [])
       (utf8 "@Bob hello") = (utf8 "hello", Some Bob)
  /\ parse_mention (room 10 [robot "Bob" true false ""] [])
       (utf8 "@Unknown hi") = (utf8 "@Unknown hi", None)
  /\ parse_mention (room 10 [robot "Bob" true false ""] [])
       (utf8 "no mention here") = (utf8 "no mention here", None).
Proof.
  split; [|repeat split; reflexivity].
  intros g content. split.
  - intros t ws rest Hf. apply parse_mention_matched.
    apply re_match_mention_form. exists ws. exact Hf.
  - intros Hnone. unfold parse_mention.
    destruct (re_match_mention content) as [[t rest]|] eqn:Hm; [|reflexivity].
    apply re_match_mention_form in Hm as [ws Hf]. destruct (Hnone _ _ _ Hf).
Qed.

End MentionParser.

(** *** The view of one robot *)

Section Views.

Lemma system_prompt_head g robot_name robot_config :
  exists tl, system_prompt g robot_name robot_config = 20320 :: tl.
Proof.
  unfold system_prompt. destruct (truthy (prompt robot_config));
    eexists; reflexivity.
Qed.

Lemma system_prompt_not_persona g robot_name robot_config :
  startswith (system_prompt g robot_name robot_config) persona_marker = false.
Proof.
  destruct (system_prompt_head g robot_name robot_config) as [tl ->].
  reflexivity.
Qed.

Lemma persona_text_marked owner p :
  startswith (persona_text owner p) persona_marker = true.
Proof. apply startswith_app. Qed.

Lemma elem_of_view g robot_name robot_config msg :
  msg ∈ robot_specific_history g robot_name robot_config
  <-> msg = Message_untargeted SYSTEM
              (system_prompt g robot_name robot_config) system_name
      \/ (visible robot_name msg = true /\ msg ∈ chat_history g).
Proof.
  unfold robot_specific_history.
  rewrite elem_of_cons, list_elem_of_filter, Is_true_true. reflexivity.
Qed.

Lemma visible_system robot_name msg :
  role msg = SYSTEM ->
  visible robot_name msg = negb (startswith (content msg) persona_marker).
Proof.
  intros Hr. unfold visible. rewrite bool_decide_eq_true_2 by exact Hr.
  destruct (startswith (content msg) persona_marker); reflexivity.
Qed.

Lemma visible_other robot_name msg :
  role msg <> SYSTEM ->
  visible robot_name msg = true ->
  target msg = None \/ target msg = Some robot_name \/ name msg = robot_name.
Proof.
  intros Hr. unfold visible. rewrite bool_decide_eq_false_2 by exact Hr.
  repeat case_bool_decide; intros; try discriminate; auto.
Qed.

(** Whatever the history holds: in the list built for a robot, a
    message that is not a System message and whose target is another
    name than the robot's has the name of the robot as the name of its
    sender.  The loop takes System messages whatever their target is. *)
Lemma view_confidentiality_other_roles g robot_name robot_config msg b :
  msg ∈ robot_specific_history g robot_name robot_config ->
  role msg <> SYSTEM ->
  target msg = Some b ->
  b <> robot_name ->
  name msg = robot_name.
Proof.
  intros [->|[Hv _]]%elem_of_view Hr Ht Hb.
  - destruct Hr. reflexivity.
  - destruct (visible_other _ _ Hr Hv) as [H|[H|H]]; congruence.
Qed.

(** When no System message of the history carries a target, as is the
    case of the System messages the engine itself builds (see
    [reachable_sound]), the same holds of every message of the list. *)
Lemma view_confidentiality_plain_system g robot_name robot_config msg b :
  (forall m, m ∈ chat_history g -> role m = SYSTEM -> target m = None) ->
  msg ∈ robot_specific_history g robot_name robot_config ->
  target msg = Some b ->
  b <> robot_name ->
  name msg = robot_name.
Proof.
  intros Hsys [->|[Hv Hin]]%elem_of_view Ht Hb.
  - discriminate Ht.
  - destruct (decide (role msg = SYSTEM)) as [Hr|Hr].
    + rewrite (Hsys msg Hin Hr) in Ht. discriminate Ht.
    + destruct (visible_other _ _ Hr Hv) as [H|[H|H]]; congruence.
Qed.

Lemma engine_system_messages_untargeted robot_name e max_turns :
  target (error_message robot_name e) = None
  /\ target (limit_reached_message max_turns) = None
  /\ target (limit_stopped_message max_turns) = None.
Proof. repeat split. Qed.

(** C2 (as amended): the persona reminder of a robot, the System message
    that starts with the marker of [load_all_robots_on_start], is in the
    list built for no robot, that of its owner included; a System message
    of the history is in the list exactly when it does not start with the
    marker. *)
Theorem system_message_filtering g robot_name robot_config :
  (forall owner p,
     Message_untargeted SYSTEM (persona_text owner p) system_name
       ∉ robot_specific_history g robot_name robot_config)
  /\ (forall msg,
        msg ∈ chat_history g -> role msg = SYSTEM ->
        (msg ∈ robot_specific_history g robot_name robot_config
         <-> startswith (content msg) persona_marker = false)).
Proof.
  split.
  - intros owner p [H|[Hv _]]%elem_of_view.
    + apply (f_equal content) in H. cbn [content Message_untargeted] in H.
      pose proof (persona_text_marked owner p) as Hm. rewrite H in Hm.
      rewrite system_prompt_not_persona in Hm. discriminate.
    + rewrite visible_system in Hv by reflexivity.
      cbn [content Message_untargeted] in Hv.
      rewrite persona_text_marked in Hv. discriminate.
  - intros msg Hin Hr. rewrite elem_of_view, (visible_system _ _ Hr). split.
    + intros [->|[Hv _]].
      * apply system_prompt_not_persona.
      * apply negb_true_iff. exact Hv.
    + intros Hs. right. rewrite Hs. split; [reflexivity|exact Hin].
Qed.

(** C9: the list built for a robot is a function of the history, of the
    active robots and of the name of the user, and of nothing else in the
    state: two states that agree on these give the same list, so building
    it twice with none of them changed gives the same list twice. *)
Theorem view_purity g1 g2 robot_name robot_config :
  chat_history g1 = chat_history g2 ->
  active_robots g1 = active_robots g2 ->
  user_name (main_config g1) = user_name (main_config g2) ->
  robot_specific_history g1 robot_name robot_config
  = robot_specific_history g2 robot_name robot_config.
Proof.
  intros Hh Ha Hu. unfold robot_specific_history, system_prompt.
  rewrite Hh, Ha, Hu. reflexivity.
Qed.

(** C10: the list built for a robot is one synthesized System message,
    which carries the system prompt, followed by a sublist of the history
    in the order of the history: the messages are the very messages of
    the history. *)
Theorem view_shape g robot_name robot_config :
  exists sys rest,
    robot_specific_history g robot_name robot_config = sys :: rest
    /\ sys = mkMessage SYSTEM (system_prompt g robot_name robot_config)
               system_name None
    /\ rest = filter (visible robot_name) (chat_history g)
    /\ rest `sublist_of` chat_history g.
Proof.
  eexists _, _. split; [reflexivity|]. split; [reflexivity|].
  split; [reflexivity|]. apply sublist_filter.
Qed.

End Views.

(** *** Dispatch rounds *)

Section Rounds.
Context `{UD : UnicodeData}.
Variable chat_completion : ChatCompletionRequest -> pystr -> Completion.

Lemma with_output_nil g : with_output g [] [] = g.
Proof. destruct g. unfold with_output. cbn. rewrite !app_nil_r. reflexivity. Qed.

Lemma with_output_twice g p1 e1 p2 e2 :
  with_output (with_output g p1 e1) p2 e2 = with_output g (p1 ++ p2) (e1 ++ e2).
Proof. unfold with_output. cbn. rewrite !app_assoc. reflexivity. Qed.

Lemma put_all g puts :
  foldl (fun g m => message_queue_put m g) g puts = with_output g puts [].
Proof.
  revert g. induction puts as [|m puts IH]; intros g.
  - symmetry. apply with_output_nil.
  - cbn [foldl]. rewrite IH. unfold with_output, message_queue_put. cbn.
    rewrite <- !app_assoc. reflexivity.
Qed.

Lemma record_all g events :
  foldl (fun g e => record_event e g) g events = with_output g [] events.
Proof.
  revert g. induction events as [|e events IH]; intros g.
  - symmetry. apply with_output_nil.
  - cbn [foldl]. rewrite IH. unfold with_output, record_event. cbn.
    rewrite <- !app_assoc. reflexivity.
Qed.

(** One responder: what it puts and what it records. *)
Lemma respond_output robot g :
  respond chat_completion robot g
  = with_output g
      (response_messages g (fst robot)
         (snd (attempt chat_completion g (fst robot) (snd robot))))
      (fst (attempt chat_completion g (fst robot) (snd robot))).
Proof.
  destruct robot as [robot_name robot_config]. unfold respond. cbn [fst snd].
  destruct (attempt chat_completion g robot_name robot_config) as [events outcome].
  cbn [fst snd]. rewrite record_all, put_all, with_output_twice.
  rewrite app_nil_r. reflexivity.
Qed.

(** The turn of a responder changes the list of no robot. *)
Lemma view_stable_in_round robot g robot_name robot_config :
  robot_specific_history (respond chat_completion robot g) robot_name robot_config
  = robot_specific_history g robot_name robot_config.
Proof. rewrite respond_output. reflexivity. Qed.

(** A loop that the turn limit does not stop: every responder has its
    turn, and all of them work on the state the loop started with. *)
Lemma respond_loop_runs max_turns responding g :
  infinite_loop g = true \/ (ai_conversation_turns g <= max_turns)%Z ->
  respond_loop chat_completion max_turns responding g
  = with_output g
      (flat_map (fun robot =>
         response_messages g (fst robot)
           (snd (attempt chat_completion g (fst robot) (snd robot)))) responding)
      (flat_map (fun robot =>
         fst (attempt chat_completion g (fst robot) (snd robot))) responding).
Proof.
  intros Hrun.
  assert (Hgo : negb (infinite_loop g)
                && (max_turns <? ai_conversation_turns g)%Z = false).
  { destruct Hrun as [->|Hle]; [reflexivity|].
    apply andb_false_iff. right. apply Z.ltb_ge. exact Hle. }
  enough (Hgen : forall puts events,
    respond_loop chat_completion max_turns responding (with_output g puts events)
    = with_output g
        (puts ++ flat_map (fun robot =>
           response_messages g (fst robot)
             (snd (attempt chat_completion g (fst robot) (snd robot)))) responding)
        (events ++ flat_map (fun robot =>
           fst (attempt chat_completion g (fst robot) (snd robot))) responding)).
  { specialize (Hgen [] []). rewrite with_output_nil in Hgen. exact Hgen. }
  induction responding as [|robot rest IH]; intros puts events.
  - cbn [respond_loop flat_map]. rewrite !app_nil_r. reflexivity.
  - cbn [respond_loop flat_map].
    change (infinite_loop (with_output g puts events)) with (infinite_loop g).
    change (ai_conversation_turns (with_output g puts events))
      with (ai_conversation_turns g).
    rewrite Hgo, respond_output, with_output_twice.
    change (attempt chat_completion (with_output g puts events))
      with (attempt chat_completion g).
    change (response_messages (with_output g puts events))
      with (response_messages g).
    rewrite IH, <- !app_assoc. reflexivity.
Qed.

(** A loop that the turn limit stops calls nobody. *)
Lemma respond_loop_stopped max_turns responding g :
  infinite_loop g = false -> (max_turns < ai_conversation_turns g)%Z ->
  respond_loop chat_completion max_turns responding g
  = match responding with
    | [] => g
    | _ :: _ => message_queue_put (limit_stopped_message max_turns) g
    end.
Proof.
  intros Hl Hlt. destruct responding as [|robot rest]; [reflexivity|].
  cbn [respond_loop]. rewrite Hl. apply Z.ltb_lt in Hlt. rewrite Hlt. reflexivity.
Qed.

Lemma responds_eligible last_message is_ai_message robot :
  responds last_message is_ai_message robot = true
  <-> eligible_in_code last_message is_ai_message robot.
Proof.
  destruct robot as [robot_name robot_config].
  unfold responds, eligible_in_code. cbn [fst snd].
  destruct (truthy_opt (target last_message)), is_ai_message,
    (auto_respond_to_ai robot_config), (auto_respond_to_all robot_config);
    repeat case_bool_decide; cbn;
    (split;
     [ intros Hres; try discriminate Hres; repeat split; intros; congruence
     | intros (Ha & Hb & Hc & Hd); try reflexivity; exfalso;
       try specialize (Hb eq_refl); try specialize (Hc eq_refl);
       try specialize (Hd eq_refl); congruence ]).
Qed.

Lemma responding_robots_filter g last_message is_ai_message :
  responding_robots g last_message is_ai_message
  = filter (eligible_in_code last_message is_ai_message) (active_robots g).
Proof.
  unfold responding_robots. apply list_filter_iff. intros robot.
  rewrite Is_true_true. apply responds_eligible.
Qed.

Lemma flat_map_singleton {A B : Type} (f : A -> B) (l : list A) :
  flat_map (fun x => [f x]) l = map f l.
Proof. induction l as [|x l IH]; [reflexivity|]. cbn. rewrite IH. reflexivity. Qed.

Lemma attempt_with_client g client robot_name robot_config :
  ai_client g = Some client ->
  attempt chat_completion g robot_name robot_config
  = ([Call robot_name
        (mkRequest (model client)
           (robot_specific_history g robot_name robot_config))],
     chat_completion
       (mkRequest (model client)
          (robot_specific_history g robot_name robot_config)) robot_name).
Proof. intros Hc. unfold attempt. rewrite Hc. reflexivity. Qed.

(** A round that the turn limit does not stop: what it records, what it
    puts, and what it leaves as it was. *)
Lemma round_effects (last_message : Message) (is_ai_message : bool)
    (g : GUI) :
  let turns :=
    (if is_ai_message then ai_conversation_turns g + 1
     else ai_conversation_turns g)%Z in
  let g' := trigger_ai_responses chat_completion last_message is_ai_message g in
  infinite_loop g = true
  \/ (turns <= max_ai_conversation_turns (main_config g))%Z ->
  trace g' = trace g ++ Round last_message is_ai_message
      :: flat_map (fun robot =>
           fst (attempt chat_completion g (fst robot) (snd robot)))
         (responding_robots g last_message is_ai_message)
  /\ message_queue g' = message_queue g
      ++ flat_map (fun robot =>
           response_messages g (fst robot)
             (snd (attempt chat_completion g (fst robot) (snd robot))))
         (responding_robots g last_message is_ai_message)
  /\ ai_conversation_turns g' = turns
  /\ ai_processing g' = false
  /\ chat_history g' = chat_history g
  /\ active_robots g' = active_robots g
  /\ main_config g' = main_config g
  /\ ai_client g' = ai_client g
  /\ infinite_loop g' = infinite_loop g.
Proof.
  intros turns g' Hrun. subst g'. unfold trigger_ai_responses.
  set (g1 := if is_ai_message then _ else _).
  assert (Hg1 : g1 = mkGUI (main_config g) (robot_dir g) (active_robots g)
                  (chat_history g) (ai_client g) turns (infinite_loop g)
                  (dev_mode g) (message_queue g) true
                  (trace g ++ [Round last_message is_ai_message])).
  { subst g1 turns. destruct is_ai_message; reflexivity. }
  rewrite respond_loop_runs.
  2:{ rewrite Hg1. cbn. destruct is_ai_message; exact Hrun. }
  rewrite Hg1. cbn. rewrite <- !app_assoc. cbn.
  repeat split; reflexivity.
Qed.

(** A round that the turn limit stops calls no robot. *)
Lemma round_stopped (last_message : Message) (is_ai_message : bool)
    (g : GUI) :
  let turns :=
    (if is_ai_message then ai_conversation_turns g + 1
     else ai_conversation_turns g)%Z in
  infinite_loop g = false ->
  (max_ai_conversation_turns (main_config g) < turns)%Z ->
  trace (trigger_ai_responses chat_completion last_message is_ai_message g)
  = trace g ++ [Round last_message is_ai_message].
Proof.
  intros turns Hl Hlt. unfold trigger_ai_responses.
  rewrite respond_loop_stopped.
  - destruct (responding_robots _ _ _); destruct is_ai_message; reflexivity.
  - destruct is_ai_message; exact Hl.
  - destruct is_ai_message; exact Hlt.
Qed.

(** C4 (as amended): the robots that answer a message are the active
    robots, in the order of the registry, other than the sender, such that
    the robot is the target when the message has one, the robot answers
    robots when the round is autonomous, and the robot answers public
    messages when the message has no target.  They are the robots that a
    round calls when the turn limit does not stop it.  A public message of
    the user reaches the robots that answer public messages, and a message
    of the user to one robot reaches that robot only. *)
Theorem eligible_responders (last_message : Message) (is_ai_message : bool)
    (g : GUI) :
  responding_robots g last_message is_ai_message
  = filter (eligible_in_code last_message is_ai_message) (active_robots g)
  /\ (forall client,
        ai_client g = Some client ->
        infinite_loop g = true
        \/ ((if is_ai_message then ai_conversation_turns g + 1
             else ai_conversation_turns g)
            <= max_ai_conversation_turns (main_config g))%Z ->
        trace (trigger_ai_responses chat_completion last_message is_ai_message g)
        = trace g ++ Round last_message is_ai_message
            :: map (fun robot =>
                 Call (fst robot)
                   (mkRequest (model client)
                      (robot_specific_history g (fst robot) (snd robot))))
               (filter (eligible_in_code last_message is_ai_message)
                  (active_robots g)))
  /\ (is_ai_message = false -> target last_message = None ->
      responding_robots g last_message is_ai_message
      = filter (fun robot => fst robot <> name last_message
                  /\ auto_respond_to_all (snd robot) = true)
          (active_robots g))
  /\ (is_ai_message = false ->
      forall b, target last_message = Some b -> b <> [] ->
      responding_robots g last_message is_ai_message
      = filter (fun robot => fst robot <> name last_message /\ fst robot = b)
          (active_robots g)).
Proof.
  split; [apply responding_robots_filter|]. split; [|split].
  - intros client Hc Hrun.
    destruct (round_effects last_message is_ai_message g Hrun) as (Ht & _).
    rewrite Ht, responding_robots_filter. do 2 f_equal.
    rewrite <- flat_map_singleton. apply flat_map_ext. intros robot.
    rewrite (attempt_with_client _ _ _ _ Hc). reflexivity.
  - intros -> Ht. rewrite responding_robots_filter.
    apply list_filter_iff. intros robot. unfold eligible_in_code.
    rewrite Ht. cbn. split.
    + intros (Hn & _ & _ & Hall). split; [exact Hn|]. apply Hall. reflexivity.
    + intros (Hn & Hall). repeat split; try discriminate; auto.
  - intros -> b Ht Hb. rewrite responding_robots_filter.
    apply list_filter_iff. intros robot. unfold eligible_in_code.
    rewrite Ht. destruct b as [|c b]; [congruence|]. cbn. split.
    + intros (Hn & Htar & _ & _). split; [exact Hn|].
      specialize (Htar eq_refl). congruence.
    + intros (Hn & Heq). repeat split; try discriminate; try congruence; auto.
Qed.

(** C8: in a round that calls its responders, every responder is called,
    in order, whatever happens to the others; a responder whose call
    raises puts one System message, which starts with the name of the
    robot, and the messages of the other responders are put as well. *)
Theorem responder_error_isolation (last_message : Message)
    (is_ai_message : bool) (g : GUI) (client : AIClient) :
  let request robot :=
    mkRequest (model client)
      (robot_specific_history g (fst robot) (snd robot)) in
  let outcome robot := chat_completion (request robot) (fst robot) in
  let responding := responding_robots g last_message is_ai_message in
  let g' := trigger_ai_responses chat_completion last_message is_ai_message g in
  ai_client g = Some client ->
  infinite_loop g = true
  \/ ((if is_ai_message then ai_conversation_turns g + 1
       else ai_conversation_turns g)
      <= max_ai_conversation_turns (main_config g))%Z ->
  trace g' = trace g ++ Round last_message is_ai_message
      :: map (fun robot => Call (fst robot) (request robot)) responding
  /\ message_queue g' = message_queue g
      ++ flat_map (fun robot => response_messages g (fst robot) (outcome robot))
           responding
  /\ (forall robot e,
        outcome robot = Raised e ->
        response_messages g (fst robot) (outcome robot)
        = [mkMessage SYSTEM (fst robot ++ utf8 " 响应失败: " ++ e)
             system_name None]
        /\ startswith (fst robot ++ utf8 " 响应失败: " ++ e) (fst robot) = true).
Proof.
  intros request outcome responding g' Hc Hrun.
  destruct (round_effects last_message is_ai_message g Hrun) as (Ht & Hq & _).
  subst g'. rewrite Ht, Hq. split; [|split].
  - do 2 f_equal. rewrite <- flat_map_singleton. apply flat_map_ext.
    intros robot. rewrite (attempt_with_client _ _ _ _ Hc). reflexivity.
  - f_equal. apply flat_map_ext. intros robot.
    rewrite (attempt_with_client _ _ _ _ Hc). reflexivity.
  - intros robot e He. rewrite He. split; [reflexivity|apply startswith_app].
Qed.

End Rounds.

(** *** The turn limit *)

Section Turns.
Context `{UD : UnicodeData}.
Variable chat_completion : ChatCompletionRequest -> pystr -> Completion.

(** At the limit the consumer only appends the message to the history:
    no round starts and nothing is put on the queue. *)
Lemma deliver_at_limit g msg :
  infinite_loop g = false ->
  (max_ai_conversation_turns (main_config g) <= ai_conversation_turns g)%Z ->
  deliver chat_completion g msg = add_message_to_history msg g.
Proof.
  intros Hl Hle. unfold deliver, process_message. rewrite Hl.
  apply Z.ltb_ge in Hle. rewrite Hle. cbn [orb]. rewrite andb_false_r.
  reflexivity.
Qed.

(** Below the limit the message of a robot starts a round. *)
Lemma deliver_below_limit g msg :
  ready g -> role msg = ASSISTANT ->
  (ai_conversation_turns g < max_ai_conversation_turns (main_config g))%Z ->
  deliver chat_completion g msg
  = trigger_ai_responses chat_completion msg true
      (add_message_to_history msg g).
Proof.
  intros (Ha & Hp & Hr & Hc) Hrole Hlt. unfold deliver, process_message.
  rewrite (bool_decide_eq_true_2 _ Hrole), Ha, Hp.
  pose proof Hlt as Hlt'. apply Z.ltb_lt in Hlt'. rewrite Hlt', orb_true_r. cbn [andb negb].
  unfold trigger_ai_response_to_ai_message.
  change (active_robots (add_message_to_history msg g)) with (active_robots g).
  change (ai_client (add_message_to_history msg g)) with (ai_client g).
  change (infinite_loop (add_message_to_history msg g)) with (infinite_loop g).
  change (main_config (add_message_to_history msg g)) with (main_config g).
  change (ai_conversation_turns (add_message_to_history msg g))
    with (ai_conversation_turns g).
  destruct (active_robots g) as [|r rs]; [congruence|].
  destruct (ai_client g) as [c|]; [|congruence]. cbn [truthy_list is_Some_b negb orb].
  assert (Hge : (max_ai_conversation_turns (main_config g)
                 <=? ai_conversation_turns g)%Z = false)
    by (apply Z.leb_gt; exact Hlt).
  rewrite Hge, andb_false_r. reflexivity.
Qed.

Lemma attempt_no_round g robots :
  filter is_round
    (flat_map (fun robot : pystr * RobotConfig =>
       fst (attempt chat_completion g (fst robot) (snd robot))) robots) = [].
Proof.
  induction robots as [|robot robots IH]; [reflexivity|].
  cbn [flat_map]. rewrite filter_app, IH, app_nil_r.
  unfold attempt. destruct (ai_client g); reflexivity.
Qed.

(** One delivery below the limit: one more round, one more turn. *)
Lemma deliver_counts g msg :
  ready g -> role msg = ASSISTANT -> infinite_loop g = false ->
  (ai_conversation_turns g < max_ai_conversation_turns (main_config g))%Z ->
  let g' := deliver chat_completion g msg in
  ready g' /\ infinite_loop g' = false
  /\ main_config g' = main_config g
  /\ ai_conversation_turns g' = (ai_conversation_turns g + 1)%Z
  /\ rounds_started (trace g') = S (rounds_started (trace g)).
Proof.
  intros Hready Hrole Hl Hlt g'. subst g'.
  rewrite (deliver_below_limit g msg Hready Hrole Hlt).
  destruct Hready as (Ha & Hp & Hr & Hc).
  destruct (round_effects chat_completion msg true (add_message_to_history msg g))
    as (Ht & _ & Hturns & Hproc & _ & Hact & Hcfg & Hcl & Hloop).
  { right.
    change (ai_conversation_turns g + 1
            <= max_ai_conversation_turns (main_config g))%Z. lia. }
  rewrite Ht, Hturns, Hcfg, Hloop. unfold ready. rewrite Hcfg, Hproc, Hact, Hcl.
  repeat split; try assumption.
  unfold rounds_started. cbn [add_message_to_history set_chat_history trace].
  rewrite filter_app, filter_cons_True by exact I.
  rewrite attempt_no_round, length_app. cbn. lia.
Qed.

(** [k] deliveries that stay below the limit: [k] rounds, [k] turns. *)
Lemma deliveries_count msgs : forall g,
  ready g -> infinite_loop g = false ->
  Forall (fun msg => role msg = ASSISTANT) msgs ->
  (ai_conversation_turns g + Z.of_nat (length msgs)
   <= max_ai_conversation_turns (main_config g))%Z ->
  let g' := foldl (deliver chat_completion) g msgs in
  ready g' /\ infinite_loop g' = false
  /\ main_config g' = main_config g
  /\ ai_conversation_turns g'
     = (ai_conversation_turns g + Z.of_nat (length msgs))%Z
  /\ rounds_started (trace g')
     = (rounds_started (trace g) + length msgs)%nat.
Proof.
  induction msgs as [|msg msgs IH]; intros g Hready Hl Hall Hle.
  - cbn. repeat split; try assumption; try apply Hready; lia.
  - apply Forall_cons in Hall as [Hrole Hall]. cbn [length foldl] in *.
    destruct (deliver_counts g msg Hready Hrole Hl) as (Hr1 & Hl1 & Hc1 & Ht1 & Hn1);
      [lia|].
    destruct (IH (deliver chat_completion g msg) Hr1 Hl1 Hall)
      as (Hr2 & Hl2 & Hc2 & Ht2 & Hn2); [rewrite Hc1, Ht1; lia|].
    cbv zeta. rewrite Hc2, Ht2, Hn2, Hc1, Ht1, Hn1.
    split; [exact Hr2|]. split; [exact Hl2|]. repeat split; lia.
Qed.

Lemma response_messages_are_responses g robot_name outcome :
  Forall is_response (response_messages g robot_name outcome).
Proof.
  destruct outcome as [e|[|choice choices]]; cbn [response_messages].
  - apply Forall_singleton. right. eauto.
  - apply Forall_nil_2.
  - apply Forall_singleton. left. unfold reply_message.
    destruct (parse_mention g (content choice)). reflexivity.
Qed.

(** What the deliveries below the limit put are responses. *)
Lemma deliveries_put_responses msgs : forall g,
  ready g -> infinite_loop g = false ->
  Forall (fun msg => role msg = ASSISTANT) msgs ->
  (ai_conversation_turns g + Z.of_nat (length msgs)
   <= max_ai_conversation_turns (main_config g))%Z ->
  exists puts,
    message_queue (foldl (deliver chat_completion) g msgs)
    = message_queue g ++ puts
    /\ Forall is_response puts.
Proof.
  induction msgs as [|msg msgs IH]; intros g Hready Hl Hall Hle.
  - exists []. cbn. rewrite app_nil_r. split; [reflexivity|apply Forall_nil_2].
  - apply Forall_cons in Hall as [Hrole Hall]. cbn [length foldl] in *.
    destruct (deliver_counts g msg Hready Hrole Hl) as (Hr1 & Hl1 & Hc1 & Ht1 & _);
      [lia|].
    destruct (IH (deliver chat_completion g msg) Hr1 Hl1 Hall)
      as (puts & Hq & Hputs); [rewrite Hc1, Ht1; lia|].
    rewrite Hq, (deliver_below_limit g msg Hready Hrole) by lia.
    destruct (round_effects chat_completion msg true (add_message_to_history msg g))
      as (_ & Hq1 & _).
    { right.
      change (ai_conversation_turns g + 1
              <= max_ai_conversation_turns (main_config g))%Z. lia. }
    rewrite Hq1. eexists. rewrite <- app_assoc. split; [reflexivity|].
    apply Forall_app. split; [|exact Hputs].
    apply Forall_flat_map, Forall_forall. intros robot _.
    apply response_messages_are_responses.
Qed.

Lemma bytes_of_small s c : In c (bytes_of s) -> c < 256.
Proof.
  induction s as [|a s IH]; cbn [bytes_of In]; [tauto|].
  intros [<-|Hin]; [apply N_ascii_bounded|exact (IH Hin)].
Qed.

Lemma mark_in_report robot_name e :
  In 21709 (content (error_message robot_name e)).
Proof.
  cbn [content error_message Message_untargeted].
  apply in_or_app. right. apply in_or_app. left. vm_compute. tauto.
Qed.

Lemma no_mark_in_notices max_turns :
  ~ In 21709 (content (limit_reached_message max_turns))
  /\ ~ In 21709 (content (limit_stopped_message max_turns)).
Proof.
  assert (Hhead : ~ In 21709 (utf8 "已达到最大AI对话轮次("))
    by (vm_compute; intuition discriminate).
  assert (Hreached : ~ In 21709 (utf8 ")。请用户发送消息以继续。"))
    by (vm_compute; intuition discriminate).
  assert (Hstopped : ~ In 21709 (utf8 ")。对话已停止。"))
    by (vm_compute; intuition discriminate).
  assert (Hint : ~ In 21709 (py_str_int max_turns)).
  { intros Hin. apply bytes_of_small in Hin. lia. }
  cbn [content limit_reached_message limit_stopped_message Message_untargeted].
  split; intros Hin.
  - apply in_app_or in Hin as [Hin|Hin]; [exact (Hhead Hin)|].
    apply in_app_or in Hin as [Hin|Hin]; [exact (Hint Hin)|exact (Hreached Hin)].
  - apply in_app_or in Hin as [Hin|Hin]; [exact (Hhead Hin)|].
    apply in_app_or in Hin as [Hin|Hin]; [exact (Hint Hin)|exact (Hstopped Hin)].
Qed.

(** A response is not a notice of the turn limit: the report of a
    failure holds a character that the notices do not hold. *)
Lemma response_not_notice m max_turns :
  is_response m ->
  m <> limit_reached_message max_turns /\ m <> limit_stopped_message max_turns.
Proof.
  destruct (no_mark_in_notices max_turns) as [Hreached Hstopped].
  intros [Hr|(robot_name & e & ->)]; split; intros E.
  - rewrite E in Hr. discriminate Hr.
  - rewrite E in Hr. discriminate Hr.
  - apply Hreached. rewrite <- E. apply mark_in_report.
  - apply Hstopped. rewrite <- E. apply mark_in_report.
Qed.

(** From a turn counter at [0], [max_turns] messages of robots start
    [max_turns] rounds, and the next message of a robot is only appended
    to the history; what has been put on the queue by then holds no
    notice of the turn limit. *)
Lemma turn_limit_run g msgs last :
  ready g -> infinite_loop g = false -> ai_conversation_turns g = 0%Z ->
  Forall (fun msg => role msg = ASSISTANT) msgs ->
  Z.of_nat (length msgs) = max_ai_conversation_turns (main_config g) ->
  let g1 := foldl (deliver chat_completion) g msgs in
  let g2 := deliver chat_completion g1 last in
  rounds_started (trace g1) = (rounds_started (trace g) + length msgs)%nat
  /\ ai_conversation_turns g1 = max_ai_conversation_turns (main_config g)
  /\ g2 = add_message_to_history last g1
  /\ exists puts,
      message_queue g2 = message_queue g ++ puts
      /\ Forall (fun m =>
            m <> limit_reached_message (max_ai_conversation_turns (main_config g))
            /\ m <> limit_stopped_message
                      (max_ai_conversation_turns (main_config g))) puts.
Proof.
  intros Hready Hl H0 Hall Hlen g1 g2.
  destruct (deliveries_count msgs g Hready Hl Hall) as (_ & Hl1 & Hc1 & Ht1 & Hn1);
    [lia|].
  destruct (deliveries_put_responses msgs g Hready Hl Hall) as (puts & Hq & Hputs);
    [lia|].
  fold g1 in Hl1, Hc1, Ht1, Hn1, Hq.
  assert (Hg2 : g2 = add_message_to_history last g1).
  { apply deliver_at_limit; [exact Hl1|]. rewrite Hc1, Ht1. lia. }
  split; [exact Hn1|]. split; [lia|]. split; [exact Hg2|].
  exists puts. rewrite Hg2. split; [exact Hq|].
  eapply Forall_impl; [exact Hputs|]. intros m Hm.
  apply response_not_notice. exact Hm.
Qed.

(** A message of the user sets the turn counter to [0]. *)
Lemma send_message_resets message_entry user_name_var g :
  strip message_entry <> [] ->
  ai_conversation_turns (fst (send_message message_entry user_name_var g)) = 0%Z.
Proof.
  intros Hne. unfold send_message.
  destruct (strip message_entry) as [|c s] eqn:Hs; [congruence|]. cbn [truthy negb].
  destruct (parse_mention _ _) as [content target]. reflexivity.
Qed.

End Turns.

(** *** Saving the configuration *)

Section Configuration.
Context `{PD : Pydantic}.

(** C7 (as amended): [save_all_config] rejects a turn limit below [1]:
    the stored limit, the default robots, the name of the user, the
    active robots, the history and the client stay as they were.  The
    call is not undone, though: the API key, the address and the model
    have the values of the form, and so have the timeout, the proxy and
    the switch of the robots' conversations when the timeout of the form
    is valid. *)
Theorem save_all_config_low_max_turns (form : ConfigForm) (g : GUI) (n : Z) :
  max_turns_var form = Some n -> (n < 1)%Z ->
  let g' := fst (save_all_config form g) in
  let outcome := snd (save_all_config form g) in
  outcome <> Saved
  /\ max_ai_conversation_turns (main_config g')
     = max_ai_conversation_turns (main_config g)
  /\ default_robots (main_config g') = default_robots (main_config g)
  /\ user_name (main_config g') = user_name (main_config g)
  /\ active_robots g' = active_robots g
  /\ chat_history g' = chat_history g
  /\ ai_client g' = ai_client g
  /\ api_key (main_config g') = api_key_var form
  /\ base_url (main_config g') = base_url_var form
  /\ config_model (main_config g') = model_var form
  /\ (forall t, timeout_var form = Some t -> (0 < t)%Z ->
        outcome = InvalidMaxTurns
        /\ timeout (main_config g') = t
        /\ proxy (main_config g') = proxy_var form
        /\ allow_ai_conversations (main_config g') = allow_ai_conv_var form).
Proof.
  intros Hm Hn g' outcome. subst g' outcome. unfold save_all_config.
  rewrite Hm. apply Z.ltb_lt in Hn. rewrite Hn.
  destruct (timeout_var form) as [t|].
  - destruct (t <=? 0)%Z eqn:Ht; cbn.
    + apply Z.leb_le in Ht.
      repeat split; try discriminate; exfalso;
        match goal with E : Some _ = Some _ |- _ => injection E as <- end; lia.
    + repeat split; try discriminate; congruence.
  - cbn. repeat split; discriminate.
Qed.

End Configuration.

(** ** The properties at work on the samples *)

(** A conjunction of closed equations is settled by evaluating them. *)
Ltac by_evaluation :=
  cbv zeta; repeat (match goal with |- _ /\ _ => split end);
  vm_compute; reflexivity.

Section Samples.
#[local] Existing Instance cjk_unicode.
#[local] Existing Instance http_prefix.

(** A history written by hand: a System message addressed to Bob would
    be in the list built for Ann.  No step of the window builds such a
    message, see [reachable_sound]. *)
Lemma system_message_with_target_is_shown :
  let msg := mkMessage SYSTEM (utf8 "note") system_name (Some Bob) in
  msg ∈ robot_specific_history (room 10 [ann; bob] [msg]) Ann (snd ann)
  /\ target msg = Some Bob /\ Bob <> Ann /\ name msg <> Ann.
Proof.
  cbv zeta. split; [|split; [reflexivity|split; intros E; vm_compute in E; discriminate E]].
  apply elem_of_view. right. split; [reflexivity|]. apply list_elem_of_here.
Qed.

(** C2, counterexample: after [load_all_robots_on_start] the history
    holds the persona reminder of Ann, and the list built for Ann does
    not. *)
Lemma own_persona_reminder_is_hidden :
  let ann_kind := robot "Ann" true true "be kind" in
  let g := load_all_robots_on_start (fresh [ann_kind]) in
  let reminder :=
    mkMessage SYSTEM (utf8 "机器人 Ann 的提示词: be kind") system_name None in
  active_robots g = [ann_kind]
  /\ reminder ∈ chat_history g
  /\ reminder ∉ robot_specific_history g Ann (snd ann_kind).
Proof.
  cbv zeta. split; [reflexivity|]. split.
  - refine (bool_decide_unpack _ _). vm_compute. exact I.
  - refine (bool_decide_unpack _ _). vm_compute. exact I.
Qed.

Lemma system_message_filtering_witness :
  let report := error_message Bob (utf8 "timeout") in
  let g := room 10 [ann; bob] [report] in
  report ∈ chat_history g /\ role report = SYSTEM
  /\ report ∈ robot_specific_history g Ann (snd ann).
Proof.
  cbv zeta.
  assert (Hin : error_message Bob (utf8 "timeout")
                ∈ chat_history
                    (room 10 [ann; bob] [error_message Bob (utf8 "timeout")]))
    by apply list_elem_of_here.
  split; [exact Hin|]. split; [reflexivity|].
  apply (proj2 (system_message_filtering _ Ann (snd ann)) _ Hin eq_refl).
  reflexivity.
Defined.

(** C3, counterexample: the cleaned text keeps the whitespace after the
    first whitespace character and at its end; the text without a
    mention is returned untrimmed; the text of a user, which
    [send_message] strips before it parses, keeps the whitespace on the
    left of the cleaned text. *)
Lemma parse_mention_keeps_spaces :
  let g := room 10 [bob; ann] [] in
  parse_mention g (utf8 "@Bob  hello ") = (utf8 " hello ", Some Bob)
  /\ utf8 " hello " <> strip (utf8 " hello ")
  /\ parse_mention g (utf8 " hi ") = (utf8 " hi ", None)
  /\ utf8 " hi " <> strip (utf8 " hi ")
  /\ snd (send_message (utf8 "@Bob  hello ") (utf8 "Eve") g)
     = Some (mkMessage USER (utf8 " hello") (utf8 "Eve") (Some Bob), true).
Proof.
  cbv zeta. repeat split; try reflexivity;
    intros E; vm_compute in E; discriminate E.
Qed.

Lemma parse_mention_contract_witness :
  let g := room 10 [bob; ann] [] in
  mention_form (utf8 "@Bob  hello ") Bob 32 (utf8 " hello ")
  /\ parse_mention g (utf8 "@Bob  hello ") = (utf8 " hello ", Some Bob).
Proof.
  cbv zeta.
  assert (Hf : mention_form (utf8 "@Bob  hello ") Bob 32 (utf8 " hello ")).
  { repeat split. intros E; vm_compute in E; discriminate E. }
  split; [exact Hf|].
  exact (proj1 (proj1 parse_mention_contract (room 10 [bob; ann] []) _) _ _ _ Hf).
Defined.

(** C4, counterexample: a robot that does not answer robots is not
    called by a robot's message addressed to it, and a robot that does
    not answer public messages is not called by a robot's public message,
    where the rule of the specification calls both. *)
Lemma robots_between_themselves :
  let g := room 10 [ann; bob_deaf; carol] [] in
  let to_bob := mkMessage ASSISTANT (utf8 "ping") Ann (Some Bob) in
  let to_all := mkMessage ASSISTANT (utf8 "ping") Ann None in
  responding_robots g to_bob true = []
  /\ filter (eligible_as_specified to_bob true) (active_robots g) = [bob_deaf]
  /\ trace (trigger_ai_responses ok_service to_bob true g) = [Round to_bob true]
  /\ responding_robots g to_all true = []
  /\ filter (eligible_as_specified to_all true) (active_robots g) = [carol]
  /\ trace (trigger_ai_responses ok_service to_all true g) = [Round to_all true].
Proof. by_evaluation. Qed.

Lemma eligible_responders_witness :
  let g := room 10 [ann; bob] [] in
  let public := mkMessage USER (utf8 "hello") (utf8 "Eve") None in
  let to_bob := mkMessage USER (utf8 "status?") (utf8 "Eve") (Some Bob) in
  ai_client g = Some sample_client
  /\ (ai_conversation_turns g <= max_ai_conversation_turns (main_config g))%Z
  /\ responding_robots g public false = [ann]
  /\ responding_robots g to_bob false = [bob]
  /\ trace (trigger_ai_responses ok_service to_bob false g)
     = [Round to_bob false;
        Call Bob (mkRequest (model sample_client)
                    (robot_specific_history g Bob (snd bob)))].
Proof.
  cbv zeta. set (g := room 10 [ann; bob] []).
  set (public := mkMessage USER (utf8 "hello") (utf8 "Eve") None).
  set (to_bob := mkMessage USER (utf8 "status?") (utf8 "Eve") (Some Bob)).
  assert (Hc : ai_client g = Some sample_client) by reflexivity.
  assert (Hle : (ai_conversation_turns g
                 <= max_ai_conversation_turns (main_config g))%Z)
    by (vm_compute; discriminate).
  split; [exact Hc|]. split; [exact Hle|].
  destruct (eligible_responders ok_service public false g) as (_ & _ & Hp & _).
  destruct (eligible_responders ok_service to_bob false g) as (_ & Ht & _ & Hb).
  split; [|split].
  - rewrite (Hp eq_refl eq_refl). reflexivity.
  - rewrite (Hb eq_refl Bob eq_refl); [reflexivity|].
    intros E; vm_compute in E; discriminate E.
  - rewrite (Ht sample_client Hc (or_intror Hle)). reflexivity.
Defined.

(** C5, the code at the failing input: with a limit of two turns and
    the endless loop off, three messages of robots in a row start two
    rounds and leave the turn counter at two, and the queue holds the
    two answers of the robots and no System message: the notice of the
    limit is not put.  A fourth message of a robot is appended to the
    history and nothing else happens.  After a message of the user the
    counter is at [0] and a message of a robot starts a round again. *)
Theorem turn_limit_without_notice :
  let g := room 2 [ann; bob_chatty] [] in
  let g3 := foldl (deliver ok_service) g
              [said Ann "one"; said Bob "two"; said Ann "three"] in
  rounds_started (trace g3) = 2%nat
  /\ ai_conversation_turns g3 = 2%Z
  /\ limit_notices (message_queue g3) = 0%nat
  /\ message_queue g3 = [said Bob "ok"; said Ann "ok"]
  /\ deliver ok_service g3 (said Bob "four")
     = add_message_to_history (said Bob "four") g3
  /\ (let g5 := human_turn ok_service (utf8 "go on") (utf8 "Eve") g3 in
      ai_conversation_turns g5 = 0%Z
      /\ rounds_started (trace (deliver ok_service g5 (said Ann "five")))
         = 4%nat).
Proof. by_evaluation. Qed.

(** C6, the code at the failing input: Bob is active and Ann answers
    [Ann: @Bob text].  The mention is looked for before the name is
    removed, so the message that is put has no target and the text
    [@Bob text]; the same text typed by the user is addressed to Bob. *)
Theorem reply_with_name_then_mention :
  let g := room 10 [ann; bob] [] in
  let hello := mkMessage USER (utf8 "hello") (utf8 "Eve") None in
  reply_message g Ann (said Ann "Ann: @Bob text")
  = mkMessage ASSISTANT (utf8 "@Bob text") Ann None
  /\ message_queue (trigger_ai_responses service_echoing_name hello false g)
     = [mkMessage ASSISTANT (utf8 "@Bob text") Ann None]
  /\ parse_mention g (utf8 "@Bob text") = (utf8 "text", Some Bob).
Proof. by_evaluation. Qed.

(** C7, counterexample: the form asks for a new API key and for a turn
    limit of [0]; the call is rejected, and the API key and the model
    are the new ones. *)
Lemma rejected_save_changes_fields :
  let g := room 10 [ann; bob] [] in
  let g' := fst (save_all_config (sample_form (Some 0%Z)) g) in
  snd (save_all_config (sample_form (Some 0%Z)) g) = InvalidMaxTurns
  /\ api_key (main_config g) = utf8 "sk-old"
  /\ api_key (main_config g') = utf8 "sk-new"
  /\ config_model (main_config g) = utf8 "gpt-3.5-turbo"
  /\ config_model (main_config g') = utf8 "gpt-4"
  /\ api_key (main_config g') <> api_key (main_config g).
Proof.
  cbv zeta. repeat split; try reflexivity.
  intros E; vm_compute in E; discriminate E.
Qed.

Lemma save_all_config_low_max_turns_witness :
  let g := room 10 [ann; bob] [] in
  let g' := fst (save_all_config (sample_form (Some 0%Z)) g) in
  max_turns_var (sample_form (Some 0%Z)) = Some 0%Z /\ (0 < 1)%Z
  /\ max_ai_conversation_turns (main_config g') = 10%Z
  /\ active_robots g' = [ann; bob].
Proof.
  cbv zeta. split; [reflexivity|]. split; [reflexivity|].
  destruct (save_all_config_low_max_turns (sample_form (Some 0%Z))
              (room 10 [ann; bob] []) 0%Z eq_refl eq_refl)
    as (_ & Hm & _ & _ & Ha & _).
  split; [exact Hm|exact Ha].
Defined.

Lemma responder_error_isolation_witness :
  let g := room 10 [ann; bob_chatty] [] in
  let hello := mkMessage USER (utf8 "hello") (utf8 "Eve") None in
  let g' := trigger_ai_responses service_down_for_Ann hello false g in
  ai_client g = Some sample_client
  /\ (ai_conversation_turns g <= max_ai_conversation_turns (main_config g))%Z
  /\ trace g'
     = [Round hello false;
        Call Ann (mkRequest (model sample_client)
                    (robot_specific_history g Ann (snd ann)));
        Call Bob (mkRequest (model sample_client)
                    (robot_specific_history g Bob (snd bob_chatty)))]
  /\ message_queue g'
     = [mkMessage SYSTEM (utf8 "Ann 响应失败: timeout") system_name None;
        said Bob "ok"].
Proof.
  cbv zeta. set (g := room 10 [ann; bob_chatty] []).
  set (hello := mkMessage USER (utf8 "hello") (utf8 "Eve") None).
  assert (Hc : ai_client g = Some sample_client) by reflexivity.
  assert (Hle : (ai_conversation_turns g
                 <= max_ai_conversation_turns (main_config g))%Z)
    by (vm_compute; discriminate).
  split; [exact Hc|]. split; [exact Hle|].
  destruct (responder_error_isolation service_down_for_Ann hello false g
              sample_client Hc (or_intror Hle)) as (Ht & Hq & _).
  split; [rewrite Ht|rewrite Hq]; reflexivity.
Defined.

Lemma view_purity_witness :
  let history := [said Ann "one"; mkMessage USER (utf8 "two") (utf8 "Eve") (Some Bob)] in
  let g1 := room 10 [ann; bob] history in
  let g2 := mkGUI (sample_config 3) [] [ann; bob] history None 7%Z true true
              [said Bob "queued"] true [Round (said Ann "one") true] in
  chat_history g1 = chat_history g2
  /\ active_robots g1 = active_robots g2
  /\ user_name (main_config g1) = user_name (main_config g2)
  /\ robot_specific_history g1 Bob (snd bob)
     = robot_specific_history g2 Bob (snd bob).
Proof.
  cbv zeta. split; [reflexivity|]. split; [reflexivity|]. split; [reflexivity|].
  exact (view_purity _ _ Bob (snd bob) eq_refl eq_refl eq_refl).
Defined.

End Samples.

(** ** More properties of the program *)

(** *** Stripping and mentions *)

Section Stripping.
Context `{UD : UnicodeData}.

Lemma lstrip_split s :
  exists l, s = l ++ lstrip s /\ forallb py_isspace l = true.
Proof.
  induction s as [|c s (l & Hs & Hl)]; [exists []; split; reflexivity|].
  cbn [lstrip]. destruct (py_isspace c) eqn:Hc.
  - exists (c :: l). cbn [app forallb]. rewrite Hc, Hl, <- Hs. split; reflexivity.
  - exists []. split; reflexivity.
Qed.

Lemma lstrip_head s c r : lstrip s = c :: r -> py_isspace c = false.
Proof.
  induction s as [|d s IH]; [discriminate|]. cbn [lstrip].
  destruct (py_isspace d) eqn:Hd; [exact IH|]. intros [= <- _]. exact Hd.
Qed.

Lemma lstrip_nil s : lstrip s = [] <-> forallb py_isspace s = true.
Proof.
  induction s as [|c s IH]; [split; reflexivity|]. cbn [lstrip forallb].
  destruct (py_isspace c); cbn [andb]; [exact IH|]. split; discriminate.
Qed.

Lemma forallb_rev (f : N -> bool) s : forallb f (rev s) = forallb f s.
Proof.
  induction s as [|c s IH]; [reflexivity|]. cbn [rev forallb].
  rewrite forallb_app, IH. cbn [forallb]. rewrite andb_true_r. apply andb_comm.
Qed.

Lemma rev_nil_inv (s : pystr) : rev s = [] -> s = [].
Proof. intros H. apply (f_equal (@rev N)) in H. rewrite rev_involutive in H. exact H. Qed.

Lemma strip_nil s : strip s = [] <-> forallb py_isspace s = true.
Proof.
  unfold strip, rstrip. split.
  - intros H%rev_nil_inv. apply lstrip_nil in H. rewrite forallb_rev in H.
    destruct (lstrip s) as [|c r] eqn:Hl; [apply lstrip_nil; exact Hl|].
    apply lstrip_head in Hl. cbn [forallb] in H. rewrite Hl in H. discriminate H.
  - intros H. apply lstrip_nil in H. rewrite H. reflexivity.
Qed.

(** What [strip] returns does not end with a whitespace character. *)
Lemma strip_last s :
  strip s <> [] -> exists u c, strip s = u ++ [c] /\ py_isspace c = false.
Proof.
  unfold strip, rstrip. intros Hne.
  destruct (lstrip (rev (lstrip s))) as [|c r] eqn:Hl; [destruct Hne; reflexivity|].
  exists (rev r), c. split; [reflexivity|]. exact (lstrip_head _ _ _ Hl).
Qed.

Lemma match_word_space_needs_space t rest :
  forallb is_word t = true ->
  match rest with
  | [] => True
  | c :: _ => is_word c = false /\ py_isspace c = false
  end ->
  match_word_space (t ++ rest) = None.
Proof.
  intros Ht Hrest. induction t as [|c t IH].
  - destruct rest as [|d rest]; [reflexivity|]. cbn [app match_word_space].
    destruct Hrest as [-> _]. reflexivity.
  - cbn [forallb] in Ht. apply andb_true_iff in Ht as [Hc Ht].
    cbn [app match_word_space]. rewrite Hc, (IH Ht).
    destruct t as [|d t].
    + destruct rest as [|d rest]; [reflexivity|]. cbn [app].
      destruct Hrest as [_ ->]. reflexivity.
    + cbn [app]. cbn [forallb] in Ht. apply andb_true_iff in Ht as [Hd _].
      rewrite (is_word_not_space d Hd). reflexivity.
Qed.

Lemma parse_mention_result (g : GUI) (content : pystr) :
  match parse_mention g content with
  | (cleaned, Some t) =>
    dict_has t (active_robots g) = true /\ t <> []
    /\ forallb is_word t = true
    /\ exists ws, py_isspace ws = true /\ content = 64 :: t ++ ws :: cleaned
  | (cleaned, None) => cleaned = content
  end.
Proof.
  unfold parse_mention, re_sub_mention.
  destruct (re_match_mention content) as [[t rest]|] eqn:Hm; [|reflexivity].
  destruct (dict_has t (active_robots g)) eqn:Ha; [|reflexivity].
  apply re_match_mention_form in Hm as (ws & -> & Hne & Hw & Hs).
  split; [exact Ha|]. split; [exact Hne|]. split; [exact Hw|].
  exists ws. split; [exact Hs|reflexivity].
Qed.

(** X1: whatever [parse_mention] returns can be put together again.  A
    target is the name of an active robot, it is not empty, and the text
    that was given is [@], the target, one whitespace character and the
    cleaned text; without a target the text comes back as it was. *)
Theorem parse_mention_sound (g : GUI) (content : pystr) :
  match parse_mention g content with
  | (cleaned, Some t) =>
    dict_has t (active_robots g) = true /\ t <> []
    /\ forallb is_word t = true
    /\ exists ws, py_isspace ws = true /\ content = 64 :: t ++ ws :: cleaned
  | (cleaned, None) => cleaned = content
  end.
Proof. exact (parse_mention_result g content). Qed.

(** X2: a mention needs its whitespace.  [@name] at the end of the text,
    or followed by a character that is neither a word character nor
    whitespace (a comma, a colon), is plain text, also when the name is
    that of an active robot. *)
Theorem mention_without_space_is_text (g : GUI) (t rest : pystr) :
  forallb is_word t = true ->
  match rest with
  | [] => True
  | c :: _ => is_word c = false /\ py_isspace c = false
  end ->
  parse_mention g (64 :: t ++ rest) = (64 :: t ++ rest, None).
Proof.
  intros Ht Hrest. unfold parse_mention, re_match_mention.
  rewrite (match_word_space_needs_space t rest Ht Hrest). reflexivity.
Qed.

(** X3: a message entry that holds whitespace only is not sent: nothing
    is put on the queue and the turn counter keeps its value. *)
Theorem send_message_blank (message_entry user_name_var : pystr) (g : GUI) :
  forallb py_isspace message_entry = true ->
  send_message message_entry user_name_var g = (g, None).
Proof.
  intros H%strip_nil. unfold send_message. rewrite H. reflexivity.
Qed.

Lemma user_message_content g u content target :
  u <> [] -> (exists v c, u = v ++ [c] /\ py_isspace c = false) ->
  parse_mention g u = (content, target) -> content <> [].
Proof.
  intros Hne (v & c & Hu & Hc) Hp. unfold parse_mention in Hp.
  destruct (re_match_mention u) as [[t rest]|] eqn:Hr.
  - destruct (dict_has t (active_robots g)).
    + injection Hp as <- <-. unfold re_sub_mention. rewrite Hr.
      apply re_match_mention_form in Hr as (ws & Hform & _ & _ & Hs).
      intros ->. rewrite Hu in Hform.
      change (64 :: t ++ [ws]) with ((64 :: t) ++ [ws]) in Hform.
      apply app_inj_tail in Hform as [_ ->]. congruence.
    + injection Hp as <- <-. exact Hne.
  - injection Hp as <- <-. exact Hne.
Qed.

(** X4: a message entry that holds more than whitespace puts exactly one
    message of the user on the queue and sets the turn counter to [0].
    The text and the sender of the message are not empty, and its
    target, when it has one, is an active robot. *)
Theorem send_message_queues_one (message_entry user_name_var : pystr)
    (g : GUI) :
  forallb py_isspace message_entry = false ->
  exists m started,
    send_message message_entry user_name_var g
    = (message_queue_put m (set_ai_conversation_turns 0%Z g),
       Some (m, started))
    /\ role m = USER /\ content m <> [] /\ name m <> []
    /\ match target m with
       | None => True
       | Some t => dict_has t (active_robots g) = true /\ t <> []
       end.
Proof.
  intros Hblank.
  assert (Hne : strip message_entry <> []).
  { intros H%strip_nil. congruence. }
  assert (Htruthy : truthy (strip message_entry) = true).
  { destruct (strip message_entry); [congruence|reflexivity]. }
  unfold send_message. rewrite Htruthy. cbn [negb].
  pose proof (parse_mention_result (set_ai_conversation_turns 0%Z g)
                (strip message_entry)) as Hsound.
  pose proof (user_message_content (set_ai_conversation_turns 0%Z g)
                (strip message_entry)) as Hcontent.
  destruct (parse_mention _ _) as [text tgt] eqn:Hp.
  eexists _, _. split; [reflexivity|]. cbn [role content name target].
  split; [reflexivity|]. split.
  { apply (Hcontent text tgt Hne (strip_last _ Hne) eq_refl). }
  split.
  { destruct (strip user_name_var) as [|c r] eqn:Hn; cbn [truthy]; [|discriminate].
    intros E. vm_compute in E. discriminate E. }
  destruct tgt as [t|]; [|exact I].
  destruct Hsound as (Ha & Ht & _). split; assumption.
Qed.

End Stripping.

(** *** Views, appending and clearing *)

Section MoreViews.

(** X5: who sees what.  A message of the history that is not a System
    message is in the list built for a robot exactly when it has no
    target, or the name of the robot is its target, or the name of the
    robot is the name of its sender.  The last case is a reply of the
    robot, or a message that the user sent under the name of the robot:
    the loop compares names, whoever wrote the message. *)
Theorem view_complete (g : GUI) (robot_name : pystr)
    (robot_config : RobotConfig) (msg : Message) :
  role msg <> SYSTEM ->
  (msg ∈ robot_specific_history g robot_name robot_config
   <-> msg ∈ chat_history g
       /\ (target msg = None \/ target msg = Some robot_name
           \/ name msg = robot_name)).
Proof.
  intros Hr. rewrite elem_of_view. split.
  - intros [->|[Hv Hin]]; [destruct Hr; reflexivity|].
    split; [exact Hin|]. exact (visible_other _ _ Hr Hv).
  - intros [Hin Hsee]. right. split; [|exact Hin].
    unfold visible. rewrite (bool_decide_eq_false_2 _ Hr).
    destruct Hsee as [H|[H|H]]; repeat case_bool_decide; congruence.
Qed.

(** X6: the list of a robot only grows at its end.  When the consumer
    has appended a message to the history, the list built for a robot is
    the list built before, followed by that message when the robot may
    see it and by nothing otherwise. *)
Theorem view_after_append (g : GUI) (robot_name : pystr)
    (robot_config : RobotConfig) (msg : Message) :
  robot_specific_history (fst (process_message msg g)) robot_name robot_config
  = robot_specific_history g robot_name robot_config
    ++ (if visible robot_name msg then [msg] else []).
Proof.
  unfold robot_specific_history.
  change (chat_history (fst (process_message msg g)))
    with (chat_history g ++ [msg]).
  change (system_prompt (fst (process_message msg g)))
    with (system_prompt g).
  rewrite filter_app. cbn [app]. f_equal. f_equal.
  rewrite filter_cons, filter_nil.
  destruct (visible robot_name msg); destruct (decide _) as [H|H];
    try reflexivity; destruct H; exact I.
Qed.

Lemma persona_reminder_hidden robot_name msg :
  is_persona_reminder msg = true -> visible robot_name msg = false.
Proof.
  unfold is_persona_reminder, visible. intros [Hr Hs]%andb_true_iff.
  rewrite Hr, Hs. reflexivity.
Qed.

Lemma filter_hidden robot_name (l : list Message) :
  filter (visible robot_name) (filter is_persona_reminder l) = [].
Proof.
  induction l as [|m l IH]; [reflexivity|]. rewrite filter_cons.
  destruct (decide (is_persona_reminder m)) as [Hp|Hp]; [|exact IH].
  rewrite filter_cons_False; [exact IH|].
  apply Is_true_true in Hp. rewrite (persona_reminder_hidden robot_name m Hp).
  intros [].
Qed.

(** X7: after [clear_chat] no robot is shown anything of the past: the
    list built for a robot is the synthesized System message alone. *)
Theorem view_after_clear_chat (g : GUI) (robot_name : pystr)
    (robot_config : RobotConfig) :
  robot_specific_history (clear_chat g) robot_name robot_config
  = [Message_untargeted SYSTEM (system_prompt g robot_name robot_config)
       system_name].
Proof.
  unfold robot_specific_history.
  change (chat_history (clear_chat g))
    with (filter is_persona_reminder (chat_history g)).
  rewrite filter_hidden. reflexivity.
Qed.

Lemma filter_twice {A : Type} (f : A -> bool) (l : list A) :
  filter f (filter f l) = filter f l.
Proof.
  induction l as [|x l IH]; [reflexivity|]. rewrite filter_cons.
  destruct (decide (f x)) as [Hx|Hx]; [|exact IH].
  rewrite filter_cons_True by exact Hx. rewrite IH. reflexivity.
Qed.

(** X8: [clear_chat] keeps the persona reminders of the history, in
    their order, and drops every other message, the lists of members
    that [load_all_robots_on_start] wrote included; it sets the turn
    counter to [0], leaves the robots, the configuration and the queue as
    they are, and clearing twice is clearing once. *)
Theorem clear_chat_keeps_reminders (g : GUI) :
  chat_history (clear_chat g) `sublist_of` chat_history g
  /\ (forall msg, msg ∈ chat_history (clear_chat g)
        <-> msg ∈ chat_history g /\ role msg = SYSTEM
            /\ startswith (content msg) persona_marker = true)
  /\ ai_conversation_turns (clear_chat g) = 0%Z
  /\ active_robots (clear_chat g) = active_robots g
  /\ main_config (clear_chat g) = main_config g
  /\ message_queue (clear_chat g) = message_queue g
  /\ clear_chat (clear_chat g) = clear_chat g.
Proof.
  split; [apply sublist_filter|]. split.
  - intros msg.
    change (chat_history (clear_chat g))
      with (filter is_persona_reminder (chat_history g)).
    rewrite list_elem_of_filter, Is_true_true. unfold is_persona_reminder.
    rewrite andb_true_iff, bool_decide_eq_true. tauto.
  - repeat (split; [reflexivity|]).
    unfold clear_chat, set_chat_history, set_ai_conversation_turns.
    cbn. rewrite filter_twice. reflexivity.
Qed.

End MoreViews.

(** *** Rounds and the turn counter *)

Section MoreRounds.
Context `{UD : UnicodeData}.
Variable chat_completion : ChatCompletionRequest -> pystr -> Completion.

Lemma response_messages_short g robot_name outcome :
  (length (response_messages g robot_name outcome) <= 1)%nat.
Proof. destruct outcome as [e|[|c cs]]; cbn; lia. Qed.

Lemma flat_map_short {A B : Type} (f : A -> list B) (l : list A) :
  (forall x, (length (f x) <= 1)%nat) ->
  (length (flat_map f l) <= length l)%nat.
Proof.
  intros Hf. induction l as [|x l IH]; [reflexivity|].
  cbn [flat_map]. rewrite length_app. cbn [length]. specialize (Hf x). lia.
Qed.

(** The state after a round that the turn limit stops. *)
Lemma round_stopped_state (last_message : Message) (is_ai_message : bool)
    (g : GUI) :
  infinite_loop g = false ->
  (max_ai_conversation_turns (main_config g)
   < turns_in_round is_ai_message g)%Z ->
  trigger_ai_responses chat_completion last_message is_ai_message g
  = mkGUI (main_config g) (robot_dir g) (active_robots g) (chat_history g)
      (ai_client g) (turns_in_round is_ai_message g) false (dev_mode g)
      (message_queue g
         ++ match responding_robots g last_message is_ai_message with
            | [] => []
            | _ :: _ =>
              [limit_stopped_message (max_ai_conversation_turns (main_config g))]
            end)
      false (trace g ++ [Round last_message is_ai_message]).
Proof.
  intros Hl Hlt. unfold trigger_ai_responses, turns_in_round in *.
  destruct is_ai_message;
    (rewrite respond_loop_stopped; [|exact Hl|exact Hlt]);
    unfold responding_robots;
    cbn [active_robots set_ai_conversation_turns record_event
         set_ai_processing];
    destruct (filter _ (active_robots g));
    unfold set_ai_processing, set_ai_conversation_turns, record_event,
      message_queue_put;
    cbn; rewrite ?app_nil_r, ?Hl; reflexivity.
Qed.

(** A round, stopped or not: what it leaves alone and how much it puts. *)
Lemma round_frame (last_message : Message) (is_ai_message : bool) (g : GUI) :
  let g' := trigger_ai_responses chat_completion last_message is_ai_message g in
  ai_conversation_turns g' = turns_in_round is_ai_message g
  /\ chat_history g' = chat_history g
  /\ active_robots g' = active_robots g
  /\ main_config g' = main_config g
  /\ ai_client g' = ai_client g
  /\ infinite_loop g' = infinite_loop g
  /\ ai_processing g' = false
  /\ exists puts,
      message_queue g' = message_queue g ++ puts
      /\ (length puts
          <= length (responding_robots g last_message is_ai_message))%nat
      /\ Forall (fun m =>
            is_response m
            \/ m = limit_stopped_message
                     (max_ai_conversation_turns (main_config g))) puts.
Proof.
  intros g'. subst g'.
  destruct (infinite_loop g) eqn:Hl;
    [|destruct (Z_le_gt_dec (turns_in_round is_ai_message g)
                 (max_ai_conversation_turns (main_config g))) as [Hle|Hgt]].
  - destruct (round_effects chat_completion last_message is_ai_message g
                (or_introl Hl)) as (_ & Hq & Ht & Hp & Hh & Ha & Hc & Hcl & Hi).
    rewrite Hl in Hi. repeat (split; [assumption|]).
    eexists. split; [exact Hq|]. split.
    + apply flat_map_short. intros robot. apply response_messages_short.
    + apply Forall_flat_map, Forall_forall. intros robot _.
      eapply Forall_impl; [apply response_messages_are_responses|].
      intros m Hm. left. exact Hm.
  - destruct (round_effects chat_completion last_message is_ai_message g
                (or_intror Hle)) as (_ & Hq & Ht & Hp & Hh & Ha & Hc & Hcl & Hi).
    rewrite Hl in Hi. repeat (split; [assumption|]).
    eexists. split; [exact Hq|]. split.
    + apply flat_map_short. intros robot. apply response_messages_short.
    + apply Forall_flat_map, Forall_forall. intros robot _.
      eapply Forall_impl; [apply response_messages_are_responses|].
      intros m Hm. left. exact Hm.
  - rewrite (round_stopped_state last_message is_ai_message g Hl) by lia.
    cbn. repeat (split; [reflexivity|]).
    eexists. split; [reflexivity|].
    destruct (responding_robots g last_message is_ai_message); cbn.
    + split; [lia|apply Forall_nil_2].
    + split; [lia|]. apply Forall_singleton. right. reflexivity.
Qed.

(** X9: a round counts once.  Whatever the number of responders, and
    whether the turn limit stops the round or not, a round that a robot's
    message starts adds one to the turn counter and a round that the
    user's message starts leaves the counter alone; the round changes
    neither the history nor the robots nor the configuration, it puts at
    most one message per responder, and no round runs when it is over. *)
Theorem round_counts_once (last_message : Message) (is_ai_message : bool)
    (g : GUI) :
  let g' := trigger_ai_responses chat_completion last_message is_ai_message g in
  ai_conversation_turns g'
  = (if is_ai_message then ai_conversation_turns g + 1
     else ai_conversation_turns g)%Z
  /\ chat_history g' = chat_history g
  /\ active_robots g' = active_robots g
  /\ main_config g' = main_config g
  /\ ai_processing g' = false
  /\ exists puts,
      message_queue g' = message_queue g ++ puts
      /\ (length puts
          <= length (responding_robots g last_message is_ai_message))%nat.
Proof.
  intros g'. subst g'.
  destruct (round_frame last_message is_ai_message g)
    as (Ht & Hh & Ha & Hc & _ & _ & Hp & puts & Hq & Hlen & _).
  split; [exact Ht|]. split; [exact Hh|]. split; [exact Ha|].
  split; [exact Hc|]. split; [exact Hp|]. exists puts. split; assumption.
Qed.

(** X10: when the turn counter is above the limit as a round starts and
    the endless loop is off, no robot is called: the round puts the
    notice that the conversation has stopped, once, when some robot would
    have answered, and nothing when none would. *)
Theorem round_over_limit (last_message : Message) (is_ai_message : bool)
    (g : GUI) :
  let g' := trigger_ai_responses chat_completion last_message is_ai_message g in
  infinite_loop g = false ->
  (max_ai_conversation_turns (main_config g)
   < (if is_ai_message then ai_conversation_turns g + 1
      else ai_conversation_turns g))%Z ->
  trace g' = trace g ++ [Round last_message is_ai_message]
  /\ message_queue g'
     = message_queue g
       ++ match responding_robots g last_message is_ai_message with
          | [] => []
          | _ :: _ =>
            [limit_stopped_message (max_ai_conversation_turns (main_config g))]
          end.
Proof.
  intros g' Hl Hlt. subst g'.
  rewrite (round_stopped_state last_message is_ai_message g Hl Hlt).
  split; reflexivity.
Qed.

Lemma deliver_cases g msg :
  deliver chat_completion g msg = add_message_to_history msg g
  \/ (deliver chat_completion g msg
      = trigger_ai_responses chat_completion msg true
          (add_message_to_history msg g)
      /\ (infinite_loop g = true
          \/ (ai_conversation_turns g
              < max_ai_conversation_turns (main_config g))%Z)).
Proof.
  unfold deliver, process_message.
  destruct (bool_decide (role msg = ASSISTANT)
            && allow_ai_conversations (main_config g)
            && (infinite_loop g
                || (ai_conversation_turns g
                    <? max_ai_conversation_turns (main_config g))%Z)) eqn:Hgate;
    [|left; reflexivity].
  destruct (negb (ai_processing g)); [|left; reflexivity].
  apply andb_true_iff in Hgate as [_ Hgo]. apply orb_true_iff in Hgo.
  assert (Hgo' : infinite_loop g = true
                 \/ (ai_conversation_turns g
                     < max_ai_conversation_turns (main_config g))%Z).
  { destruct Hgo as [H|H]; [left; exact H|right; apply Z.ltb_lt; exact H]. }
  unfold trigger_ai_response_to_ai_message.
  change (active_robots (add_message_to_history msg g)) with (active_robots g).
  change (ai_client (add_message_to_history msg g)) with (ai_client g).
  change (infinite_loop (add_message_to_history msg g)) with (infinite_loop g).
  change (main_config (add_message_to_history msg g)) with (main_config g).
  change (ai_conversation_turns (add_message_to_history msg g))
    with (ai_conversation_turns g).
  destruct (negb (truthy_list (active_robots g)) || negb (is_Some_b (ai_client g)));
    [left; reflexivity|].
  destruct (negb (infinite_loop g)
            && (max_ai_conversation_turns (main_config g)
                <=? ai_conversation_turns g)%Z) eqn:Hstop.
  - apply andb_true_iff in Hstop as [Hl Hle]. apply negb_true_iff in Hl.
    apply Z.leb_le in Hle. destruct Hgo' as [H|H]; [congruence|lia].
  - right. split; [reflexivity|exact Hgo'].
Qed.

(** X11: the turn counter stays within the limit when the messages are
    handled one at a time.  [deliver] runs the test of the consumer, the
    callback it schedules and the round the callback starts one after the
    other, with no other thread in between.  In that order, with the
    endless loop off and the counter at most at the limit, the counter is
    at most at the limit after the message is handled, whatever the
    message and whatever the rest of the state; the limit and the switch
    of the loop are not touched.  (The three run on three threads with no
    lock: when the consumer tests a second message before the round of
    the first has counted, the counter passes the limit.) *)
Theorem turn_counter_within_limit (g : GUI) (msg : Message) :
  let g' := deliver chat_completion g msg in
  infinite_loop g = false ->
  (ai_conversation_turns g <= max_ai_conversation_turns (main_config g))%Z ->
  (ai_conversation_turns g' <= max_ai_conversation_turns (main_config g'))%Z
  /\ main_config g' = main_config g
  /\ infinite_loop g' = false.
Proof.
  intros g' Hl Hle. subst g'.
  destruct (deliver_cases g msg) as [->|[-> Hgo]].
  - cbn. auto.
  - destruct (round_frame msg true (add_message_to_history msg g))
      as (Ht & _ & _ & Hc & _ & Hi & _).
    rewrite Ht, Hc, Hi. unfold turns_in_round. cbn.
    destruct Hgo as [H|H]; [congruence|]. split; [lia|]. split; [reflexivity|exact Hl].
Qed.

Lemma deliver_in_loop g msg :
  ready g -> role msg = ASSISTANT -> infinite_loop g = true ->
  deliver chat_completion g msg
  = trigger_ai_responses chat_completion msg true
      (add_message_to_history msg g).
Proof.
  intros (Ha & Hp & Hr & Hc) Hrole Hl. unfold deliver, process_message.
  rewrite (bool_decide_eq_true_2 _ Hrole), Ha, Hp, Hl. cbn [andb orb negb].
  unfold trigger_ai_response_to_ai_message.
  change (active_robots (add_message_to_history msg g)) with (active_robots g).
  change (ai_client (add_message_to_history msg g)) with (ai_client g).
  change (infinite_loop (add_message_to_history msg g)) with (infinite_loop g).
  destruct (active_robots g) as [|r rs]; [congruence|].
  destruct (ai_client g) as [c|]; [|congruence].
  rewrite Hl. reflexivity.
Qed.

(** X12: with the endless loop on the limit stops nothing.  Every
    message of a robot that the consumer handles starts a round and adds
    one to the turn counter, also beyond the limit. *)
Theorem endless_loop_ignores_limit (msgs : list Message) : forall g : GUI,
  ready g -> infinite_loop g = true ->
  Forall (fun msg => role msg = ASSISTANT) msgs ->
  let g' := foldl (deliver chat_completion) g msgs in
  ai_conversation_turns g'
  = (ai_conversation_turns g + Z.of_nat (length msgs))%Z
  /\ rounds_started (trace g')
     = (rounds_started (trace g) + length msgs)%nat
  /\ ready g' /\ infinite_loop g' = true.
Proof.
  induction msgs as [|msg msgs IH]; intros g Hready Hl Hall.
  - cbn. split; [lia|]. split; [lia|]. split; assumption.
  - apply Forall_cons in Hall as [Hrole Hall]. cbn [foldl length].
    pose proof (deliver_in_loop g msg Hready Hrole Hl) as Hd.
    destruct (round_effects chat_completion msg true
                (add_message_to_history msg g) (or_introl Hl))
      as (Ht & _ & Hturns & Hproc & _ & Hact & Hcfg & Hcl & Hloop).
    rewrite <- Hd in Ht, Hturns, Hproc, Hact, Hcfg, Hcl, Hloop.
    assert (Hready1 : ready (deliver chat_completion g msg)).
    { destruct Hready as (Ha & Hp & Hr & Hc). unfold ready.
      rewrite Hcfg, Hproc, Hact, Hcl. repeat split; assumption. }
    assert (Hl1 : infinite_loop (deliver chat_completion g msg) = true).
    { rewrite Hloop. exact Hl. }
    destruct (IH (deliver chat_completion g msg) Hready1 Hl1 Hall)
      as (IHt & IHn & IHr & IHl).
    cbv zeta. rewrite IHt, IHn, Hturns, Ht.
    split; [cbn; lia|]. split; [|split; assumption].
    unfold rounds_started. cbn [add_message_to_history set_chat_history trace].
    rewrite filter_app, filter_cons_True by exact I.
    rewrite attempt_no_round, !length_app. cbn. lia.
Qed.

End MoreRounds.

(** *** The registry of the active robots *)

Section Registry.
Context `{UD : UnicodeData}.

Lemma dict_set_keys {V : Type} (k : pystr) (v : V) (d : list (pystr * V)) :
  map fst (dict_set k v d)
  = if bool_decide (k ∈ map fst d) then map fst d else map fst d ++ [k].
Proof.
  induction d as [|[k' v'] d IH]; [reflexivity|]. cbn [dict_set map fst].
  destruct (decide (k' = k)) as [->|Hne].
  - rewrite bool_decide_eq_true_2 by apply list_elem_of_here. reflexivity.
  - cbn [map fst]. rewrite IH. destruct (bool_decide (k ∈ map fst d)) eqn:Hin.
    + apply bool_decide_eq_true in Hin.
      rewrite bool_decide_eq_true_2 by (apply list_elem_of_further; exact Hin).
      reflexivity.
    + apply bool_decide_eq_false in Hin.
      rewrite bool_decide_eq_false_2; [reflexivity|].
      intros [E|H]%elem_of_cons; [congruence|exact (Hin H)].
Qed.

Lemma NoDup_dict_set {V : Type} (k : pystr) (v : V) (d : list (pystr * V)) :
  NoDup (map fst d) -> NoDup (map fst (dict_set k v d)).
Proof.
  intros Hd. rewrite dict_set_keys. case_bool_decide as Hin; [exact Hd|].
  apply NoDup_app. split; [exact Hd|]. split; [|apply NoDup_singleton].
  intros x Hx ->%list_elem_of_singleton. exact (Hin Hx).
Qed.

Lemma dict_has_set {V : Type} (k k' : pystr) (v : V) (d : list (pystr * V)) :
  dict_has k' (dict_set k v d) = bool_decide (k' = k) || dict_has k' d.
Proof.
  unfold dict_has. rewrite dict_set_keys.
  destruct (bool_decide (k ∈ map fst d)) eqn:Hin.
  - destruct (bool_decide (k' = k)) eqn:E; [|reflexivity].
    apply bool_decide_eq_true in E, Hin. subst k'.
    rewrite bool_decide_eq_true_2 by exact Hin. reflexivity.
  - apply eq_true_iff_eq. rewrite orb_true_iff, !bool_decide_eq_true.
    rewrite elem_of_app, list_elem_of_singleton. tauto.
Qed.

Lemma dict_set_fresh {V : Type} (k : pystr) (v : V) (d : list (pystr * V)) :
  k ∉ map fst d -> dict_set k v d = d ++ [(k, v)].
Proof.
  induction d as [|[k' v'] d IH]; [reflexivity|]. cbn [map fst].
  intros Hin. cbn [dict_set].
  destruct (decide (k' = k)) as [->|Hne].
  - destruct Hin. apply list_elem_of_here.
  - rewrite IH; [reflexivity|]. intros H. apply Hin, list_elem_of_further, H.
Qed.

Lemma dict_del_keys {V : Type} (k : pystr) (d : list (pystr * V)) :
  map fst (dict_del k d) = filter (fun k' => k' <> k) (map fst d).
Proof.
  unfold dict_del. induction d as [|[k' v'] d IH]; [reflexivity|].
  cbn [map fst]. rewrite !filter_cons. cbn [fst].
  destruct (decide (k' <> k)); cbn [map fst]; rewrite IH; reflexivity.
Qed.

Lemma NoDup_dict_del {V : Type} (k : pystr) (d : list (pystr * V)) :
  NoDup (map fst d) -> NoDup (map fst (dict_del k d)).
Proof. intros Hd. rewrite dict_del_keys. apply NoDup_filter. exact Hd. Qed.

Lemma dict_has_del {V : Type} (k k' : pystr) (d : list (pystr * V)) :
  dict_has k' (dict_del k d) = negb (bool_decide (k' = k)) && dict_has k' d.
Proof.
  unfold dict_has. rewrite dict_del_keys. apply eq_true_iff_eq.
  rewrite andb_true_iff, negb_true_iff, bool_decide_eq_false,
    !bool_decide_eq_true, list_elem_of_filter. tauto.
Qed.

Lemma dict_del_absent {V : Type} (k : pystr) (d : list (pystr * V)) :
  dict_has k d = false -> dict_del k d = d.
Proof.
  unfold dict_has, dict_del. intros Hk%bool_decide_eq_false.
  induction d as [|[k' v'] d IH]; [reflexivity|]. cbn [map fst] in Hk.
  rewrite filter_cons_True.
  - rewrite IH; [reflexivity|]. intros H. apply Hk, list_elem_of_further, H.
  - cbn [fst]. intros ->. apply Hk, list_elem_of_here.
Qed.

(** The first loop of [load_all_robots_on_start]. *)
Lemma load_enabled_keys all_robots : forall active info,
  NoDup (map fst active) ->
  NoDup (map fst (fst (load_enabled all_robots active info))).
Proof.
  induction all_robots as [|[k rc] rest IH]; intros active info Hd; [exact Hd|].
  cbn [load_enabled]. destruct (enabled rc); [|apply IH; exact Hd].
  apply IH, NoDup_dict_set, Hd.
Qed.

Lemma load_enabled_fresh all_robots : forall active info,
  NoDup (map fst all_robots) ->
  (forall k, k ∈ map fst all_robots -> k ∉ map fst active) ->
  fst (load_enabled all_robots active info)
  = active ++ filter (fun r : pystr * RobotConfig => enabled (snd r)) all_robots.
Proof.
  induction all_robots as [|[k rc] rest IH]; intros active info Hd Hfresh.
  - cbn. rewrite app_nil_r. reflexivity.
  - cbn [map fst] in Hd, Hfresh. apply NoDup_cons in Hd as [Hk Hd].
    cbn [load_enabled]. rewrite filter_cons. cbn [snd].
    destruct (enabled rc) eqn:He.
    + rewrite IH; [|exact Hd|].
      * rewrite dict_set_fresh by (apply Hfresh, list_elem_of_here).
        destruct (decide (Is_true true)) as [_|H]; [|destruct H; exact I].
        rewrite <- app_assoc. reflexivity.
      * intros k' Hk'. rewrite dict_set_keys.
        rewrite bool_decide_eq_false_2 by (apply Hfresh, list_elem_of_here).
        intros [H|H%list_elem_of_singleton]%elem_of_app;
          [|subst k'; exact (Hk Hk')].
        exact (Hfresh k' (list_elem_of_further _ _ _ Hk') H).
    + destruct (decide (Is_true false)) as [H|_]; [destruct H|].
      apply IH; [exact Hd|]. intros k' Hk'.
      apply Hfresh, list_elem_of_further, Hk'.
Qed.

Lemma load_active g :
  active_robots (load_all_robots_on_start g)
  = fst (load_enabled (robot_dir g) (active_robots g)
           (roster_head (user_name (main_config g)))).
Proof.
  unfold load_all_robots_on_start.
  destruct (load_enabled _ _ _) as [active info]. reflexivity.
Qed.

(** Loading on an empty [active_robots]. *)
Lemma load_from_nothing (g : GUI) :
  active_robots g = [] ->
  NoDup (map fst (robot_dir g)) ->
  active_robots (load_all_robots_on_start g)
  = filter (fun r : pystr * RobotConfig => enabled (snd r)) (robot_dir g).
Proof.
  intros Ha Hd. rewrite load_active, Ha, load_enabled_fresh; [reflexivity|exact Hd|].
  intros k _ H. cbn in H. inversion H.
Qed.

(** X13: loading makes the enabled robots the active ones.  When no
    robot is active, as at the start and in [save_all_config], and the
    directory holds each name once, the active robots after
    [load_all_robots_on_start] are the enabled robots of the directory,
    in its order: a disabled robot is never active. *)
Theorem load_activates_enabled (g : GUI) :
  active_robots g = [] ->
  NoDup (map fst (robot_dir g)) ->
  active_robots (load_all_robots_on_start g)
  = filter (fun r : pystr * RobotConfig => enabled (snd r)) (robot_dir g).
Proof. exact (load_from_nothing g). Qed.

Lemma filter_one_key (P : pystr * RobotConfig -> Prop)
    `{!forall r, Decision (P r)} (t : pystr) (l : list (pystr * RobotConfig)) :
  (forall r, P r -> fst r = t) ->
  NoDup (map fst l) -> (length (filter P l) <= 1)%nat.
Proof.
  intros HP. induction l as [|r l IH]; [cbn; lia|].
  cbn [map]. intros [Hr Hl]%NoDup_cons. rewrite filter_cons.
  destruct (decide (P r)) as [Hp|Hp]; [|exact (IH Hl)].
  assert (Hnone : filter P l = []).
  { destruct (filter P l) as [|r' l'] eqn:Hf; [reflexivity|].
    assert (Hin : r' ∈ filter P l) by (rewrite Hf; apply list_elem_of_here).
    apply list_elem_of_filter in Hin as [Hp' Hin']. destruct Hr.
    rewrite (HP r Hp), <- (HP r' Hp'). apply list_elem_of_fmap_2. exact Hin'. }
  rewrite Hnone. cbn. lia.
Qed.

Lemma one_responder (g : GUI) (last_message : Message)
    (is_ai_message : bool) :
  NoDup (map fst (active_robots g)) ->
  truthy_opt (target last_message) = true ->
  (length (responding_robots g last_message is_ai_message) <= 1)%nat.
Proof.
  intros Hd Ht. destruct (target last_message) as [t|] eqn:Htar; [|discriminate].
  unfold responding_robots. apply (filter_one_key _ t); [|exact Hd].
  intros [robot_name robot_config] Hr%Is_true_true. unfold responds in Hr.
  rewrite Htar, Ht in Hr. cbn [andb fst] in *.
  case_bool_decide; [discriminate|].
  case_bool_decide as E; [congruence|discriminate].
Qed.

(** X14: a message with a target is answered by one robot at most.  When
    the active robots have distinct names, as a [dict] makes them, the
    responders to a message that carries a target are none or one. *)
Theorem targeted_message_one_responder (g : GUI) (last_message : Message)
    (is_ai_message : bool) :
  NoDup (map fst (active_robots g)) ->
  truthy_opt (target last_message) = true ->
  (length (responding_robots g last_message is_ai_message) <= 1)%nat.
Proof. apply one_responder. Qed.

(** X15: [save_user_name] stores the stripped name, and only a name that
    is not empty and not the name of an active robot; an entry of
    whitespace and the name of an active robot are refused, and a refusal
    changes nothing. *)
Theorem save_user_name_guard (user_name_var : pystr) (g : GUI) :
  let g' := fst (save_user_name user_name_var g) in
  let outcome := snd (save_user_name user_name_var g) in
  (outcome = NameEmpty <-> forallb py_isspace user_name_var = true)
  /\ (outcome = NameTaken
      <-> forallb py_isspace user_name_var = false
          /\ dict_has (strip user_name_var) (active_robots g) = true)
  /\ (outcome <> NameSaved -> g' = g)
  /\ (outcome = NameSaved ->
      user_name (main_config g') = strip user_name_var
      /\ user_name (main_config g') <> []
      /\ names_apart g'
      /\ active_robots g' = active_robots g
      /\ chat_history g' = chat_history g).
Proof.
  cbv zeta. unfold save_user_name, names_apart.
  pose proof (strip_nil user_name_var) as Hnil.
  destruct (strip user_name_var) as [|c r] eqn:Hs; cbn [truthy negb fst snd].
  - assert (Hb : forallb py_isspace user_name_var = true) by (apply Hnil; reflexivity).
    rewrite Hb. repeat split; try discriminate; try reflexivity; intros []; discriminate.
  - assert (Hb : forallb py_isspace user_name_var = false).
    { destruct (forallb py_isspace user_name_var); [|reflexivity].
      destruct Hnil as [_ H]. discriminate (H eq_refl). }
    rewrite Hb. destruct (dict_has (c :: r) (active_robots g)) eqn:Ha;
      cbn [fst snd]; repeat split; try discriminate; try reflexivity;
      try (intros []; discriminate); try (intros H; destruct H; reflexivity).
    exact Ha.
Qed.

Lemma editor_saved is_new dir form g :
  snd (editor_save_robot is_new dir form g) = true ->
  strip (name_var form) <> []
  /\ strip (name_var form) <> user_name (main_config g)
  /\ main_config (fst (editor_save_robot is_new dir form g)) = main_config g
  /\ active_robots (fst (editor_save_robot is_new dir form g))
     = if enabled_var form
       then dict_set (strip (name_var form)) (new_config form) (active_robots g)
       else dict_del (strip (name_var form)) (active_robots g).
Proof.
  unfold editor_save_robot.
  destruct (strip (name_var form)) as [|c r] eqn:Hn; cbn [truthy negb];
    [discriminate|].
  case_bool_decide as Hu; [discriminate|].
  destruct (is_new && bool_decide (c :: r ∈ list_robots dir)); [discriminate|].
  destruct (config_manager_save_robot dir (new_config form) g); [|discriminate].
  change (enabled (new_config form)) with (enabled_var form).
  destruct (enabled_var form).
  - intros _. split; [discriminate|]. split; [exact Hu|]. split; reflexivity.
  - destruct (dict_has (c :: r) (active_robots g)) eqn:Ha; intros _;
      (split; [discriminate|]; split; [exact Hu|]; split; [reflexivity|]).
    + reflexivity.
    + cbn [fst]. symmetry. apply dict_del_absent. exact Ha.
Qed.

Lemma editor_refused is_new dir form g :
  snd (editor_save_robot is_new dir form g) = false ->
  fst (editor_save_robot is_new dir form g) = g.
Proof.
  unfold editor_save_robot.
  destruct (negb (truthy (strip (name_var form)))); [reflexivity|].
  case_bool_decide; [reflexivity|].
  destruct (is_new && _); [reflexivity|].
  destruct (config_manager_save_robot dir (new_config form) g); [|reflexivity].
  destruct (enabled (new_config form)); [discriminate|].
  destruct (dict_has _ _); discriminate.
Qed.

Lemma delete_effects file_exists removed robot_name g :
  active_robots (delete_selected_robot file_exists removed robot_name g)
  = (if file_exists && removed then dict_del robot_name (active_robots g)
     else active_robots g)
  /\ user_name (main_config
                  (delete_selected_robot file_exists removed robot_name g))
     = user_name (main_config g)
  /\ chat_history (delete_selected_robot file_exists removed robot_name g)
     = chat_history g
  /\ message_queue (delete_selected_robot file_exists removed robot_name g)
     = message_queue g.
Proof.
  unfold delete_selected_robot, config_manager_delete_robot.
  destruct file_exists; [|repeat split; reflexivity].
  destruct removed; [|repeat split; reflexivity]. cbn [negb andb].
  destruct (bool_decide (robot_name ∈ default_robots (main_config g)));
    cbn [active_robots set_main_config];
    (destruct (dict_has robot_name (active_robots g)) eqn:Ha;
     [repeat split; reflexivity|]);
    (split; [symmetry; apply dict_del_absent; exact Ha|repeat split; reflexivity]).
Qed.

(** X16: the name of the user and the names of the active robots stay
    apart.  When the name of the user in the configuration is not the
    name of an active robot, it is not after [save_user_name], after the
    [save_robot] of the editor or after [delete_selected_robot], whatever
    the entries hold and whatever the directory answers. *)
Theorem names_stay_apart (g : GUI) :
  names_apart g ->
  (forall user_name_var, names_apart (fst (save_user_name user_name_var g)))
  /\ (forall is_new dir form,
        names_apart (fst (editor_save_robot is_new dir form g)))
  /\ (forall file_exists removed robot_name,
        names_apart (delete_selected_robot file_exists removed robot_name g)).
Proof.
  unfold names_apart. intros Hg. split; [|split].
  - intros user_name_var. unfold save_user_name.
    destruct (negb (truthy (strip user_name_var))); [exact Hg|].
    destruct (dict_has (strip user_name_var) (active_robots g)) eqn:Ha;
      [exact Hg|exact Ha].
  - intros is_new dir form.
    destruct (snd (editor_save_robot is_new dir form g)) eqn:Hs.
    + destruct (editor_saved is_new dir form g Hs) as (_ & Hu & -> & ->).
      destruct (enabled_var form).
      * rewrite dict_has_set, Hg, orb_false_r.
        apply bool_decide_eq_false_2. congruence.
      * rewrite dict_has_del, Hg. apply andb_false_r.
    + rewrite (editor_refused is_new dir form g Hs). exact Hg.
  - intros file_exists removed robot_name.
    destruct (delete_effects file_exists removed robot_name g) as (-> & -> & _).
    destruct (file_exists && removed); [|exact Hg].
    rewrite dict_has_del, Hg. apply andb_false_r.
Qed.

Lemma mention_of g robot_name ws rest :
  robot_name <> [] -> forallb is_word robot_name = true ->
  py_isspace ws = true ->
  parse_mention g (64 :: robot_name ++ ws :: rest)
  = if dict_has robot_name (active_robots g) then (rest, Some robot_name)
    else (64 :: robot_name ++ ws :: rest, None).
Proof.
  intros Hne Hw Hs. apply parse_mention_matched, re_match_mention_form.
  exists ws. repeat split; assumption.
Qed.

(** X17: the editor switches a robot on and off, and the mentions follow
    when the name can be mentioned.  When the [save_robot] of the editor
    has saved a robot, its name is not empty and not the name of the
    user, the robot is active exactly when the box of the editor is
    ticked, and no other robot becomes or stops being active.  When the
    name holds word characters only, a text that starts with [@], the
    name and a whitespace character is addressed to the robot when it is
    active and is plain text when it is not.  When the name holds another
    character (a hyphen, a blank), which the editor accepts, no text is
    addressed to the robot, active or not. *)
Theorem edited_robot_and_mentions (is_new : bool) (dir : Directory)
    (form : RobotForm) (g : GUI) :
  let robot_name := strip (name_var form) in
  let g' := fst (editor_save_robot is_new dir form g) in
  snd (editor_save_robot is_new dir form g) = true ->
  robot_name <> [] /\ robot_name <> user_name (main_config g)
  /\ dict_has robot_name (active_robots g') = enabled_var form
  /\ (forall other, other <> robot_name ->
        dict_has other (active_robots g') = dict_has other (active_robots g))
  /\ (forallb is_word robot_name = true ->
      forall (ws : N) (rest : pystr), py_isspace ws = true ->
        parse_mention g' (64 :: robot_name ++ ws :: rest)
        = if enabled_var form then (rest, Some robot_name)
          else (64 :: robot_name ++ ws :: rest, None))
  /\ (forallb is_word robot_name = false ->
      forall content, snd (parse_mention g' content) <> Some robot_name).
Proof.
  intros robot_name g' Hs. subst g'.
  destruct (editor_saved is_new dir form g Hs) as (Hne & Hu & _ & Ha).
  fold robot_name in Hne, Hu, Ha.
  assert (Hhas : dict_has robot_name
                   (active_robots (fst (editor_save_robot is_new dir form g)))
                 = enabled_var form).
  { rewrite Ha. destruct (enabled_var form).
    - rewrite dict_has_set, bool_decide_eq_true_2 by reflexivity. reflexivity.
    - rewrite dict_has_del, bool_decide_eq_true_2 by reflexivity. reflexivity. }
  split; [exact Hne|]. split; [exact Hu|]. split; [exact Hhas|].
  split; [|split].
  - intros other Ho. rewrite Ha. destruct (enabled_var form).
    + rewrite dict_has_set, bool_decide_eq_false_2 by exact Ho. reflexivity.
    + rewrite dict_has_del, bool_decide_eq_false_2 by exact Ho. reflexivity.
  - intros Hw ws rest Hws.
    rewrite (mention_of _ robot_name ws rest Hne Hw Hws), Hhas. reflexivity.
  - intros Hw content.
    pose proof (parse_mention_result
                  (fst (editor_save_robot is_new dir form g)) content) as Hp.
    destruct (parse_mention _ content) as [cleaned [t|]]; [|discriminate].
    destruct Hp as (_ & _ & Ht & _). cbn [snd]. intros E.
    injection E as ->. congruence.
Qed.

Lemma list_remove_gone (x : pystr) (l : list pystr) :
  NoDup l -> x ∉ list_remove x l.
Proof.
  induction l as [|y l IH]; [intros _ H; inversion H|].
  intros [Hy Hl]%NoDup_cons. cbn [list_remove].
  destruct (decide (y = x)) as [->|Hne]; [exact Hy|].
  intros [E|H]%elem_of_cons; [congruence|exact (IH Hl H)].
Qed.

(** X18: a deleted robot is gone.  When [delete_selected_robot] has
    removed the file of a robot, the robot is not active, the other
    robots are as active as before, no text is addressed to the robot
    any more, the history is untouched, and the robot is no default
    robot when the list of the default robots held each name once; when
    the file is not there or cannot be removed, nothing changes. *)
Theorem deleted_robot_gone (robot_name : pystr) (g : GUI) :
  let g' := delete_selected_robot true true robot_name g in
  dict_has robot_name (active_robots g') = false
  /\ (forall other, other <> robot_name ->
        dict_has other (active_robots g') = dict_has other (active_robots g))
  /\ (forall content, snd (parse_mention g' content) <> Some robot_name)
  /\ chat_history g' = chat_history g
  /\ (NoDup (default_robots (main_config g)) ->
      robot_name ∉ default_robots (main_config g'))
  /\ (forall removed, delete_selected_robot false removed robot_name g = g)
  /\ delete_selected_robot true false robot_name g = g.
Proof.
  intros g'. subst g'.
  destruct (delete_effects true true robot_name g) as (Ha & _ & Hh & _).
  cbn [andb] in Ha.
  assert (Hgone : dict_has robot_name
                    (active_robots (delete_selected_robot true true robot_name g))
                  = false).
  { rewrite Ha, dict_has_del, bool_decide_eq_true_2 by reflexivity. reflexivity. }
  split; [exact Hgone|]. split.
  { intros other Ho. rewrite Ha, dict_has_del, bool_decide_eq_false_2 by exact Ho.
    reflexivity. }
  split.
  { intros content E.
    pose proof (parse_mention_result
                  (delete_selected_robot true true robot_name g) content) as Hr.
    destruct (parse_mention _ content) as [cleaned [t|]]; [|discriminate E].
    cbn [snd] in E. injection E as ->. destruct Hr as (Hin & _). congruence. }
  split; [exact Hh|]. split; [|split; [intros removed; reflexivity|reflexivity]].
  intros Hd. unfold delete_selected_robot, config_manager_delete_robot.
  cbn [negb]. case_bool_decide as Hin.
  - cbn [set_main_config active_robots].
    destruct (dict_has robot_name (active_robots g)); cbn;
      apply list_remove_gone; exact Hd.
  - destruct (dict_has robot_name (active_robots g)); cbn; exact Hin.
Qed.

End Registry.

(** *** Saving, loading and the steps of the window *)

(** The fields of a state that is written out. *)
Ltac project :=
  cbn [main_config robot_dir active_robots chat_history ai_client
       ai_conversation_turns infinite_loop dev_mode message_queue
       ai_processing trace fst snd set_main_config set_active_robots
       set_chat_history set_ai_client set_ai_conversation_turns
       set_ai_processing message_queue_put record_event set_infinite_loop
       set_dev_mode set_robot_dir toggle_infinite_loop toggle_dev_mode
       add_message_to_history config_manager_set process_message
       base_url timeout api_key proxy config_model].

Section MoreSteps.
Context `{UD : UnicodeData} `{PD : Pydantic}.
Variable chat_completion : ChatCompletionRequest -> pystr -> Completion.

Lemma load_state g :
  load_all_robots_on_start g
  = let r := load_enabled (robot_dir g) (active_robots g)
               (roster_head (user_name (main_config g))) in
    mkGUI (main_config g) (robot_dir g) (fst r)
      (chat_history g ++ flat_map (seed_messages (snd r)) (fst r))
      (ai_client g) (ai_conversation_turns g) (infinite_loop g) (dev_mode g)
      (message_queue g) (ai_processing g) (trace g).
Proof.
  unfold load_all_robots_on_start.
  destruct (load_enabled _ _ _) as [active info]. reflexivity.
Qed.

Lemma seed_messages_plain info robots :
  Forall plain (flat_map (seed_messages info) robots).
Proof.
  apply Forall_flat_map, Forall_forall. intros [robot_name robot_config] _.
  unfold seed_messages. destruct (truthy (prompt robot_config));
    repeat constructor.
Qed.

Lemma init_ai_client_frame g :
  main_config (init_ai_client g) = main_config g
  /\ active_robots (init_ai_client g) = active_robots g
  /\ chat_history (init_ai_client g) = chat_history g
  /\ message_queue (init_ai_client g) = message_queue g
  /\ ai_conversation_turns (init_ai_client g) = ai_conversation_turns g.
Proof. unfold init_ai_client. destruct (_ && _); repeat split. Qed.

(** The form that [save_all_config] accepts, and what it then does. *)
Lemma save_all_config_accepts form g t n :
  timeout_var form = Some t -> max_turns_var form = Some n ->
  (0 < t)%Z -> (1 <= n)%Z ->
  save_all_config form g
  = (init_ai_client
       (load_all_robots_on_start
          (set_active_robots []
             (set_main_config
                (mkConfig (api_key_var form) (base_url_var form)
                   (model_var form) t (proxy_var form)
                   (map fst (filter (fun nv => snd nv = true) (robot_vars form)))
                   (user_name (main_config g)) (allow_ai_conv_var form) n)
                g))),
     Saved).
Proof.
  intros Ht Hn Htpos Hnpos. unfold save_all_config. rewrite Ht, Hn.
  assert (H1 : (t <=? 0)%Z = false) by (apply Z.leb_gt; lia).
  assert (H2 : (n <? 1)%Z = false) by (apply Z.ltb_ge; lia).
  rewrite H1, H2. reflexivity.
Qed.

Lemma save_all_config_outcome form g :
  snd (save_all_config form g) = Saved <-> valid_numbers form.
Proof.
  unfold valid_numbers. split.
  - unfold save_all_config. destruct (timeout_var form) as [t|]; [|discriminate].
    destruct (t <=? 0)%Z eqn:Ht; [discriminate|].
    destruct (max_turns_var form) as [n|]; [|discriminate].
    destruct (n <? 1)%Z eqn:Hn; [discriminate|]. intros _.
    exists t, n. apply Z.leb_gt in Ht. apply Z.ltb_ge in Hn.
    repeat split; try reflexivity; lia.
  - intros (t & n & Ht & Htpos & Hn & Hnpos).
    rewrite (save_all_config_accepts form g t n Ht Hn Htpos Hnpos). reflexivity.
Qed.

(** X19: [save_all_config] saves exactly when the timeout is above [0]
    and the turn limit is at least [1].  Then every field of the
    configuration but the name of the user has the value of the form, the
    active robots are the enabled robots of the directory (when it holds
    each name once), the history of before is a prefix of the history,
    the turn counter keeps its value, and the client is the client of the
    new configuration when its address is accepted and stays the client
    of before when it is not. *)
Theorem save_all_config_saves (form : ConfigForm) (g : GUI) :
  (snd (save_all_config form g) = Saved <-> valid_numbers form)
  /\ (forall t n,
        timeout_var form = Some t -> max_turns_var form = Some n ->
        (0 < t)%Z -> (1 <= n)%Z ->
        let g' := fst (save_all_config form g) in
        main_config g'
        = mkConfig (api_key_var form) (base_url_var form) (model_var form) t
            (proxy_var form)
            (map fst (filter (fun nv => snd nv = true) (robot_vars form)))
            (user_name (main_config g)) (allow_ai_conv_var form) n
        /\ (NoDup (map fst (robot_dir g)) ->
            active_robots g'
            = filter (fun r : pystr * RobotConfig => enabled (snd r))
                (robot_dir g))
        /\ chat_history g `prefix_of` chat_history g'
        /\ ai_conversation_turns g' = ai_conversation_turns g
        /\ ai_client g'
           = if is_http_url (base_url_var form)
             then Some (mkClient (api_key_var form) (base_url_var form) t
                          (proxy_var form) (model_var form))
             else ai_client g).
Proof.
  split; [apply save_all_config_outcome|].
  intros t n Ht Hn Htpos Hnpos g'. subst g'.
  rewrite (save_all_config_accepts form g t n Ht Hn Htpos Hnpos). cbn [fst].
  set (g1 := set_active_robots [] _).
  destruct (init_ai_client_frame (load_all_robots_on_start g1))
    as (Hc & Ha & Hh & _ & Hturns).
  rewrite Hc, Ha, Hh, Hturns. split; [rewrite load_state; reflexivity|].
  split.
  { intros Hd. apply (load_from_nothing g1); [reflexivity|exact Hd]. }
  split; [rewrite load_state; apply prefix_app_r; reflexivity|].
  split; [rewrite load_state; reflexivity|].
  unfold init_ai_client. rewrite load_state. subst g1. project.
  assert (H1 : (1 <=? t)%Z = true) by (apply Z.leb_le; lia).
  rewrite H1, andb_true_r. destruct (is_http_url (base_url_var form)); reflexivity.
Qed.

(** What a step adds to the history and to the queue. *)
Lemma step_growth op g :
  op <> Clear ->
  exists hs qs,
    chat_history (run chat_completion op g) = chat_history g ++ hs
    /\ message_queue (run chat_completion op g) = message_queue g ++ qs
    /\ Forall plain qs
    /\ Forall (fun m => plain m \/ op = Consume m) hs.
Proof.
  assert (Hnone : forall g' : GUI,
            chat_history g' = chat_history g ->
            message_queue g' = message_queue g ->
            exists hs qs,
              chat_history g' = chat_history g ++ hs
              /\ message_queue g' = message_queue g ++ qs
              /\ Forall plain qs
              /\ Forall (fun m => plain m \/ op = Consume m) hs).
  { intros g' Hh Hq. exists [], []. rewrite Hh, Hq, !app_nil_r.
    split; [reflexivity|]. split; [reflexivity|]. split; constructor. }
  intros Hop. destruct op; cbn [run].
  - (* Send *)
    unfold send_message.
    destruct (negb (truthy (strip message_entry))); [apply Hnone; reflexivity|].
    destruct (parse_mention _ _) as [text tgt]. cbn [fst].
    eexists [], [_]. project. rewrite app_nil_r.
    split; [reflexivity|]. split; [reflexivity|]. split; [|constructor].
    apply Forall_singleton. intros E. discriminate E.
  - (* Consume *)
    exists [msg], []. project. rewrite app_nil_r.
    split; [reflexivity|]. split; [reflexivity|]. split; [constructor|].
    apply Forall_singleton. right. reflexivity.
  - (* Callback *)
    unfold trigger_ai_response_to_ai_message.
    destruct (_ || _); [apply Hnone; reflexivity|].
    destruct (_ && _); [|apply Hnone; reflexivity].
    eexists [], [_]. project. rewrite app_nil_r.
    split; [reflexivity|]. split; [reflexivity|]. split; [|constructor].
    apply Forall_singleton. intros _. reflexivity.
  - (* Dispatch *)
    destruct (round_frame chat_completion last_message is_ai_message g)
      as (_ & Hh & _ & _ & _ & _ & _ & puts & Hq & _ & Hputs).
    exists [], puts. rewrite Hh, Hq, app_nil_r.
    split; [reflexivity|]. split; [reflexivity|]. split; [|constructor].
    eapply Forall_impl; [exact Hputs|]. intros m [[Hr|(rn & e & ->)]| ->] Hs.
    + congruence.
    + reflexivity.
    + reflexivity.
  - (* Load *)
    rewrite load_state. project. eexists _, [].
    split; [reflexivity|]. split; [symmetry; apply app_nil_r|].
    split; [constructor|].
    eapply Forall_impl; [apply seed_messages_plain|]. intros m Hm. left. exact Hm.
  - (* Init_client *)
    destruct (init_ai_client_frame g) as (_ & _ & Hh & Hq & _).
    apply Hnone; assumption.
  - (* Clear *) destruct Hop. reflexivity.
  - (* Save_config *)
    unfold save_all_config.
    destruct (timeout_var form) as [t|]; [|apply Hnone; reflexivity].
    destruct (t <=? 0)%Z; [apply Hnone; reflexivity|].
    destruct (max_turns_var form) as [n|]; [|apply Hnone; reflexivity].
    destruct (n <? 1)%Z; [apply Hnone; reflexivity|].
    cbn [fst]. set (g1 := set_active_robots [] _).
    destruct (init_ai_client_frame (load_all_robots_on_start g1))
      as (_ & _ & Hh & Hq & _).
    rewrite Hh, Hq, load_state. subst g1. project. eexists _, [].
    split; [reflexivity|]. split; [symmetry; apply app_nil_r|].
    split; [constructor|].
    eapply Forall_impl; [apply seed_messages_plain|]. intros m Hm. left. exact Hm.
  - (* Save_user_name *)
    unfold save_user_name. destruct (negb _); [|destruct (dict_has _ _)];
      apply Hnone; reflexivity.
  - (* Edit_robot *)
    destruct (snd (editor_save_robot is_new dir form g)) eqn:Hs.
    + unfold editor_save_robot in *.
      destruct (negb _); [discriminate|]. case_bool_decide; [discriminate|].
      destruct (is_new && _); [discriminate|].
      destruct (config_manager_save_robot _ _ _); [|discriminate].
      destruct (enabled _); [|destruct (dict_has _ _)];
        apply Hnone; reflexivity.
    + rewrite (editor_refused is_new dir form g Hs). apply Hnone; reflexivity.
  - (* Delete_robot *)
    destruct (delete_effects file_exists removed robot_name g)
      as (_ & _ & Hh & Hq).
    apply Hnone; assumption.
  - apply Hnone; reflexivity.
  - apply Hnone; reflexivity.
  - apply Hnone; reflexivity.
Qed.

(** X20: the history only grows.  But for [clear_chat], no step of the
    window, be it the loading of the robots, the creation of the client,
    a message of the user, the consumer, a round, the saving of the
    configuration or of a name, the editor, a deletion or a switch,
    removes or changes a message of the history: the history of before is
    a prefix of the history of after. *)
Theorem history_only_grows (op : Op) (g : GUI) :
  op <> Clear ->
  chat_history g `prefix_of` chat_history (run chat_completion op g).
Proof.
  intros Hop. destruct (step_growth op g Hop) as (hs & _ & -> & _).
  apply prefix_app_r. reflexivity.
Qed.

Lemma step_registry op g :
  NoDup (map fst (active_robots g)) ->
  NoDup (map fst (active_robots (run chat_completion op g))).
Proof.
  intros Hd. destruct op; cbn [run]; try exact Hd.
  - unfold send_message. destruct (negb _); [exact Hd|].
    destruct (parse_mention _ _). exact Hd.
  - unfold trigger_ai_response_to_ai_message.
    destruct (_ || _); [exact Hd|]. destruct (_ && _); exact Hd.
  - destruct (round_frame chat_completion last_message is_ai_message g)
      as (_ & _ & -> & _). exact Hd.
  - rewrite load_active. apply load_enabled_keys, Hd.
  - destruct (init_ai_client_frame g) as (_ & -> & _). exact Hd.
  - unfold save_all_config.
    destruct (timeout_var form) as [t|]; [|exact Hd].
    destruct (t <=? 0)%Z; [exact Hd|].
    destruct (max_turns_var form) as [n|]; [|exact Hd].
    destruct (n <? 1)%Z; [exact Hd|]. cbn [fst].
    set (g1 := set_active_robots [] _).
    destruct (init_ai_client_frame (load_all_robots_on_start g1))
      as (_ & -> & _).
    rewrite load_active. apply load_enabled_keys. constructor.
  - unfold save_user_name. destruct (negb _); [|destruct (dict_has _ _)];
      exact Hd.
  - destruct (snd (editor_save_robot is_new dir form g)) eqn:Hs.
    + destruct (editor_saved is_new dir form g Hs) as (_ & _ & _ & ->).
      destruct (enabled_var form);
        [apply NoDup_dict_set|apply NoDup_dict_del]; exact Hd.
    + rewrite (editor_refused is_new dir form g Hs). exact Hd.
  - destruct (delete_effects file_exists removed robot_name g) as (-> & _).
    destruct (_ && _); [apply NoDup_dict_del|]; exact Hd.
Qed.

Lemma reachable_sound g : reachable chat_completion g -> sound g.
Proof.
  induction 1 as [config dir|op g Hreach (Hh & Hq & Hd) Hallowed].
  - repeat split; constructor.
  - assert (Hclear : op = Clear \/ op <> Clear)
      by (destruct op; solve [left; reflexivity | right; discriminate]).
    split; [|split; [|apply step_registry; exact Hd]].
    + destruct Hclear as [->|Hop].
      * cbn [run]. change (chat_history (clear_chat g))
          with (filter is_persona_reminder (chat_history g)).
        apply Forall_forall. intros m [_ Hin]%list_elem_of_filter.
        exact (proj1 (Forall_forall _ _) Hh m Hin).
      * destruct (step_growth op g Hop) as (hs & qs & -> & _ & _ & Hhs).
        apply Forall_app. split; [exact Hh|].
        eapply Forall_impl; [exact Hhs|]. intros m [Hm| ->]; [exact Hm|].
        cbn [allowed] in Hallowed.
        exact (proj1 (Forall_forall _ _) Hq m Hallowed).
    + destruct Hclear as [->|Hop]; [exact Hq|].
      destruct (step_growth op g Hop) as (hs & qs & _ & -> & Hqs & _).
      apply Forall_app. split; assumption.
Qed.

(** C1: confidentiality of the list built for a robot.  In every state
    that the steps of the window reach from its start, whatever the
    configuration, the robot directory, the entries of the user and the
    answers of the service, a message of the list built for a robot whose
    target is another name than the robot's has the name of the robot as
    the name of its sender.  This holds of the System messages as well:
    the window builds none with a target. *)
Theorem view_confidentiality (g : GUI) (robot_name : pystr)
    (robot_config : RobotConfig) (msg : Message) (b : pystr) :
  reachable chat_completion g ->
  msg ∈ robot_specific_history g robot_name robot_config ->
  target msg = Some b ->
  b <> robot_name ->
  name msg = robot_name.
Proof.
  intros (Hh & _)%reachable_sound.
  apply view_confidentiality_plain_system.
  intros m Hin. exact (proj1 (Forall_forall _ _) Hh m Hin).
Qed.

(** X22: on the window as the program makes it, the active robots have
    distinct names, so that a message with a target has one responder at
    most, and no System message of the history or of the queue carries a
    target. *)
Theorem reachable_registry (g : GUI) :
  reachable chat_completion g ->
  NoDup (map fst (active_robots g))
  /\ (forall last_message is_ai_message,
        truthy_opt (target last_message) = true ->
        (length (responding_robots g last_message is_ai_message) <= 1)%nat)
  /\ (forall m, m ∈ chat_history g ++ message_queue g ->
        role m = SYSTEM -> target m = None).
Proof.
  intros (Hh & Hq & Hd)%reachable_sound. split; [exact Hd|]. split.
  - intros last_message is_ai_message. apply one_responder. exact Hd.
  - intros m [Hin|Hin]%elem_of_app.
    + exact (proj1 (Forall_forall _ _) Hh m Hin).
    + exact (proj1 (Forall_forall _ _) Hq m Hin).
Qed.

(** X21: the name of the sender does not tell a robot from the user.
    [send_message] takes the name of the sender from the entry of the
    user, and the loop that builds the list of a robot takes every
    message whose sender has the name of the robot.  So when the entry
    holds a name and the user addresses an active robot, the message of
    the user, once the consumer has appended it, is in the list built
    for that name as it is in the list built for the addressed robot: a
    robot of that name is shown a message of the user that is addressed
    to another robot. *)
Theorem user_message_under_robot_name_is_shown (g : GUI)
    (message_entry user_name_var b text : pystr) (ws : N)
    (robot_config : RobotConfig) :
  let a := strip user_name_var in
  let m := mkMessage USER text a (Some b) in
  let g' := run chat_completion (Consume m)
              (run chat_completion (Send message_entry user_name_var) g) in
  reachable chat_completion g ->
  a <> [] ->
  strip message_entry = 64 :: b ++ ws :: text ->
  b <> [] -> forallb is_word b = true -> py_isspace ws = true ->
  dict_has b (active_robots g) = true ->
  reachable chat_completion g'
  /\ m ∈ message_queue (run chat_completion (Send message_entry user_name_var) g)
  /\ m ∈ robot_specific_history g' a robot_config
  /\ m ∈ robot_specific_history g' b robot_config.
Proof.
  intros a m g' Hreach Ha Hentry Hb Hw Hws Hhas.
  assert (Hn : truthy a = true) by (destruct a; [congruence|reflexivity]).
  assert (Hsend : fst (send_message message_entry user_name_var g)
                  = message_queue_put m (set_ai_conversation_turns 0%Z g)).
  { unfold send_message. rewrite Hentry. cbn [truthy negb]. fold a. rewrite Hn.
    rewrite (mention_of _ b ws text Hb Hw Hws).
    change (active_robots (set_ai_conversation_turns 0%Z g))
      with (active_robots g).
    rewrite Hhas. reflexivity. }
  assert (Hq : m ∈ message_queue
                     (run chat_completion (Send message_entry user_name_var) g)).
  { cbn [run]. rewrite Hsend. project. apply elem_of_app. right.
    apply list_elem_of_here. }
  assert (Hin : m ∈ chat_history g').
  { subst g'. cbn [run]. project. apply elem_of_app. right.
    apply list_elem_of_here. }
  split; [|split; [exact Hq|split]].
  - subst g'. apply reachable_step; [|exact Hq].
    apply reachable_step; [exact Hreach|exact I].
  - apply elem_of_view. right. split; [|exact Hin].
    unfold visible. subst m. cbn [role target name].
    rewrite (bool_decide_eq_false_2 (USER = SYSTEM)) by discriminate.
    rewrite (bool_decide_eq_false_2 (Some b = None)) by discriminate.
    rewrite (bool_decide_eq_true_2 (a = a)) by reflexivity.
    destruct (bool_decide (Some b = Some a)); reflexivity.
  - apply elem_of_view. right. split; [|exact Hin].
    unfold visible. subst m. cbn [role target name].
    rewrite (bool_decide_eq_false_2 (USER = SYSTEM)) by discriminate.
    rewrite (bool_decide_eq_false_2 (Some b = None)) by discriminate.
    rewrite (bool_decide_eq_true_2 (Some b = Some b)) by reflexivity.
    reflexivity.
Qed.

End MoreSteps.

(** *** Who answers an addressed message, and when the consumer is quiet *)

Section Addressing.
Context `{UD : UnicodeData}.
Variable chat_completion : ChatCompletionRequest -> pystr -> Completion.

(** In a [dict] a key selects one entry. *)
Lemma filter_the_key (P : pystr * RobotConfig -> bool) (t : pystr)
    (rc : RobotConfig) (l : list (pystr * RobotConfig)) :
  NoDup (map fst l) -> (t, rc) ∈ l ->
  (forall r, P r = true -> fst r = t) ->
  filter P l = if P (t, rc) then [(t, rc)] else [].
Proof.
  intros Hd Hin HP.
  assert (Hnone : forall l', t ∉ map fst l' -> filter P l' = []).
  { intros l' Ht. induction l' as [|r l' IH]; [reflexivity|].
    cbn [map] in Ht. apply not_elem_of_cons in Ht as [Hr Hl].
    rewrite filter_cons. destruct (decide (P r)) as [Hp|Hp]; [|exact (IH Hl)].
    apply Is_true_true, HP in Hp. congruence. }
  induction l as [|r l IH]; [inversion Hin|].
  cbn [map] in Hd. apply NoDup_cons in Hd as [Hr Hl].
  apply elem_of_cons in Hin as [<-|Hin].
  - rewrite filter_cons, (Hnone l Hr).
    destruct (decide (P (t, rc))) as [Hp|Hp].
    + apply Is_true_true in Hp. rewrite Hp. reflexivity.
    + apply Is_true_false in Hp. rewrite Hp. reflexivity.
  - assert (Ht : t ∈ map fst l)
      by exact (list_elem_of_fmap_2 fst l (t, rc) Hin).
    rewrite filter_cons. destruct (decide (P r)) as [Hp|Hp]; [|exact (IH Hl Hin)].
    apply Is_true_true, HP in Hp. congruence.
Qed.

(** X23: who answers an addressed message.  When the active robots have
    distinct names and a message is addressed to one of them, that robot
    answers alone, whatever it does with public messages, unless it sent
    the message itself or the message is a robot's and it does not answer
    robots: then nobody answers. *)
Theorem addressed_robot_answers_alone (g : GUI) (last_message : Message)
    (is_ai_message : bool) (t : pystr) (robot_config : RobotConfig) :
  NoDup (map fst (active_robots g)) ->
  (t, robot_config) ∈ active_robots g ->
  target last_message = Some t -> t <> [] ->
  responding_robots g last_message is_ai_message
  = if bool_decide (t = name last_message)
       || (is_ai_message && negb (auto_respond_to_ai robot_config))
    then [] else [(t, robot_config)].
Proof.
  intros Hd Hin Htar Hne.
  assert (Ht : truthy_opt (Some t) = true) by (destruct t; [congruence|reflexivity]).
  unfold responding_robots.
  rewrite (filter_the_key _ t robot_config _ Hd Hin).
  - unfold responds. rewrite Htar, Ht.
    rewrite (bool_decide_eq_true_2 (Some t = Some t)) by reflexivity.
    cbn [negb andb]. destruct (bool_decide (t = name last_message)); [reflexivity|].
    cbn [orb]. destruct (is_ai_message && negb (auto_respond_to_ai robot_config));
      reflexivity.
  - intros [rn rc] Hr. unfold responds in Hr. rewrite Htar, Ht in Hr.
    cbn [andb fst] in *.
    case_bool_decide; [discriminate|].
    case_bool_decide as E; [congruence|discriminate].
Qed.

(** X24: [send_message] takes the name of the sender from the entry, not
    from the configuration.  With the name of an active robot in the
    entry, which [save_user_name] refuses to save, a message is put on
    the queue under that name all the same, and the robot of that name is
    not among those that answer it. *)
Theorem send_message_under_robot_name (message_entry user_name_var : pystr)
    (g : GUI) :
  forallb py_isspace message_entry = false ->
  strip user_name_var <> [] ->
  dict_has (strip user_name_var) (active_robots g) = true ->
  save_user_name user_name_var g = (g, NameTaken)
  /\ exists m started,
      snd (send_message message_entry user_name_var g) = Some (m, started)
      /\ name m = strip user_name_var
      /\ forall is_ai_message robot,
          robot ∈ responding_robots
                    (fst (send_message message_entry user_name_var g))
                    m is_ai_message ->
          fst robot <> strip user_name_var.
Proof.
  intros Hb Hne Hhas.
  assert (Hn : truthy (strip user_name_var) = true)
    by (destruct (strip user_name_var); [congruence|reflexivity]).
  assert (He : truthy (strip message_entry) = true).
  { destruct (strip message_entry) eqn:E; [|reflexivity].
    apply strip_nil in E. congruence. }
  split.
  - unfold save_user_name. rewrite Hn, Hhas. reflexivity.
  - unfold send_message. rewrite He, Hn. cbn [negb].
    destruct (parse_mention _ _) as [text tgt]. cbn [fst snd].
    eexists _, _. split; [reflexivity|]. split; [reflexivity|].
    intros is_ai_message robot Hin. unfold responding_robots in Hin.
    apply list_elem_of_filter in Hin as [Hr _].
    apply Is_true_true, responds_eligible in Hr. exact (proj1 Hr).
Qed.

(** X25: the consumer starts rounds for the messages of robots only, and
    only when the robots may talk to each other.  When the configuration
    does not allow AI conversations, or no message is a robot's, handling
    a list of messages appends them to the history and does nothing else:
    no robot is called, nothing is put on the queue and the turn counter
    keeps its value. *)
Theorem consumer_quiet (msgs : list Message) : forall g : GUI,
  allow_ai_conversations (main_config g) = false
  \/ Forall (fun msg => role msg <> ASSISTANT) msgs ->
  foldl (deliver chat_completion) g msgs
  = set_chat_history (chat_history g ++ msgs) g.
Proof.
  induction msgs as [|msg msgs IH]; intros g H.
  - destruct g. cbn. rewrite app_nil_r. reflexivity.
  - cbn [foldl].
    assert (Hd : deliver chat_completion g msg = add_message_to_history msg g).
    { unfold deliver, process_message. destruct H as [Ha|Hf].
      - rewrite Ha, andb_false_r. reflexivity.
      - apply Forall_cons in Hf as [Hr _].
        rewrite (bool_decide_eq_false_2 _ Hr). reflexivity. }
    rewrite Hd, IH.
    + destruct g. cbn. rewrite <- app_assoc. reflexivity.
    + destruct H as [Ha|Hf]; [left; exact Ha|right].
      apply Forall_cons in Hf as [_ Hf]. exact Hf.
Qed.

End Addressing.

(** *** The further properties at work on the samples *)

Section MoreSamples.
#[local] Existing Instance cjk_unicode.
#[local] Existing Instance http_prefix.

Ltac decided := refine (bool_decide_unpack _ _); vm_compute; exact I.

Lemma mention_without_space_is_text_witness :
  forallb is_word Bob = true
  /\ parse_mention (room 10 [ann; bob] []) (64 :: Bob ++ [])
     = (64 :: Bob ++ [], None)
  /\ parse_mention (room 10 [ann; bob] []) (64 :: Bob ++ utf8 ", hi")
     = (64 :: Bob ++ utf8 ", hi", None).
Proof.
  assert (Hw : forallb is_word Bob = true) by reflexivity.
  split; [exact Hw|]. split.
  - exact (mention_without_space_is_text (room 10 [ann; bob] []) Bob [] Hw I).
  - exact (mention_without_space_is_text (room 10 [ann; bob] []) Bob
             (utf8 ", hi") Hw (conj eq_refl eq_refl)).
Defined.

Lemma send_message_blank_witness :
  forallb py_isspace (utf8 "   ") = true
  /\ send_message (utf8 "   ") (utf8 "Eve") (room 10 [ann; bob] [])
     = (room 10 [ann; bob] [], None).
Proof.
  assert (Hb : forallb py_isspace (utf8 "   ") = true) by reflexivity.
  split; [exact Hb|].
  exact (send_message_blank (utf8 "   ") (utf8 "Eve") (room 10 [ann; bob] []) Hb).
Defined.

Lemma send_message_queues_one_witness :
  forallb py_isspace (utf8 " @Bob  hi ") = false
  /\ exists m started,
      snd (send_message (utf8 " @Bob  hi ") [] (room 10 [ann; bob] []))
      = Some (m, started)
      /\ content m <> [] /\ name m <> [].
Proof.
  assert (Hb : forallb py_isspace (utf8 " @Bob  hi ") = false) by reflexivity.
  split; [exact Hb|].
  destruct (send_message_queues_one (utf8 " @Bob  hi ") []
              (room 10 [ann; bob] []) Hb)
    as (m & started & Hs & _ & Hc & Hn & _).
  exists m, started. rewrite Hs. split; [reflexivity|]. split; assumption.
Defined.

Lemma view_complete_witness :
  let msg := mkMessage USER (utf8 "status?") (utf8 "Eve") (Some Bob) in
  let g := room 10 [ann; bob] [msg] in
  role msg <> SYSTEM /\ msg ∈ chat_history g
  /\ msg ∈ robot_specific_history g Bob (snd bob).
Proof.
  cbv zeta.
  assert (Hr : role (mkMessage USER (utf8 "status?") (utf8 "Eve") (Some Bob))
               <> SYSTEM) by discriminate.
  assert (Hin : mkMessage USER (utf8 "status?") (utf8 "Eve") (Some Bob)
                ∈ chat_history
                    (room 10 [ann; bob]
                       [mkMessage USER (utf8 "status?") (utf8 "Eve") (Some Bob)]))
    by apply list_elem_of_here.
  split; [exact Hr|]. split; [exact Hin|].
  apply (proj2 (view_complete _ Bob (snd bob) _ Hr)).
  split; [exact Hin|]. right. left. reflexivity.
Defined.

Lemma round_over_limit_witness :
  let g := room (-1) [ann; bob] [] in
  infinite_loop g = false
  /\ (max_ai_conversation_turns (main_config g) < ai_conversation_turns g)%Z
  /\ message_queue (trigger_ai_responses ok_service hello_from_Eve false g)
     = message_queue g
       ++ match responding_robots g hello_from_Eve false with
          | [] => []
          | _ :: _ =>
            [limit_stopped_message (max_ai_conversation_turns (main_config g))]
          end.
Proof.
  cbv zeta.
  assert (Hl : infinite_loop (room (-1) [ann; bob] []) = false) by reflexivity.
  assert (Hlt : (max_ai_conversation_turns (main_config (room (-1) [ann; bob] []))
                 < ai_conversation_turns (room (-1) [ann; bob] []))%Z)
    by reflexivity.
  split; [exact Hl|]. split; [exact Hlt|].
  exact (proj2 (round_over_limit ok_service hello_from_Eve false
                  (room (-1) [ann; bob] []) Hl Hlt)).
Defined.

Lemma turn_counter_within_limit_witness :
  let g := room 2 [ann; bob_chatty] [] in
  infinite_loop g = false
  /\ (ai_conversation_turns g <= max_ai_conversation_turns (main_config g))%Z
  /\ (ai_conversation_turns (deliver ok_service g (said Ann "one"))
      <= max_ai_conversation_turns
           (main_config (deliver ok_service g (said Ann "one"))))%Z.
Proof.
  cbv zeta.
  assert (Hl : infinite_loop (room 2 [ann; bob_chatty] []) = false)
    by reflexivity.
  assert (Hle : (ai_conversation_turns (room 2 [ann; bob_chatty] [])
                 <= max_ai_conversation_turns
                      (main_config (room 2 [ann; bob_chatty] [])))%Z)
    by (vm_compute; discriminate).
  split; [exact Hl|]. split; [exact Hle|].
  exact (proj1 (turn_counter_within_limit ok_service
                  (room 2 [ann; bob_chatty] []) (said Ann "one") Hl Hle)).
Defined.

Lemma endless_loop_ignores_limit_witness :
  let g := set_infinite_loop true (room 1 [ann; bob_chatty] []) in
  let msgs := [said Ann "one"; said Bob "two"; said Ann "three"] in
  ready g /\ infinite_loop g = true
  /\ ai_conversation_turns (foldl (deliver ok_service) g msgs)
     = (ai_conversation_turns g + 3)%Z.
Proof.
  cbv zeta.
  assert (Hr : ready (set_infinite_loop true (room 1 [ann; bob_chatty] []))).
  { split; [reflexivity|]. split; [reflexivity|]. split; discriminate. }
  split; [exact Hr|]. split; [reflexivity|].
  refine (proj1 (endless_loop_ignores_limit ok_service
                   [said Ann "one"; said Bob "two"; said Ann "three"]
                   _ Hr eq_refl _)).
  repeat constructor.
Defined.

Lemma load_activates_enabled_witness :
  active_robots (fresh [ann; dan_off; bob]) = []
  /\ NoDup (map fst (robot_dir (fresh [ann; dan_off; bob])))
  /\ active_robots (load_all_robots_on_start (fresh [ann; dan_off; bob]))
     = filter (fun r : pystr * RobotConfig => enabled (snd r))
         (robot_dir (fresh [ann; dan_off; bob])).
Proof.
  assert (Hd : NoDup (map fst (robot_dir (fresh [ann; dan_off; bob]))))
    by decided.
  split; [reflexivity|]. split; [exact Hd|].
  exact (load_activates_enabled (fresh [ann; dan_off; bob]) eq_refl Hd).
Defined.

Lemma targeted_message_one_responder_witness :
  let g := room 10 [ann; bob] [] in
  NoDup (map fst (active_robots g))
  /\ truthy_opt (target ann_to_bob) = true
  /\ (length (responding_robots g ann_to_bob true) <= 1)%nat.
Proof.
  cbv zeta.
  assert (Hd : NoDup (map fst (active_robots (room 10 [ann; bob] []))))
    by decided.
  split; [exact Hd|]. split; [reflexivity|].
  exact (targeted_message_one_responder (room 10 [ann; bob] []) ann_to_bob true
           Hd eq_refl).
Defined.

Lemma names_stay_apart_witness :
  let g := room 10 [ann; bob] [] in
  names_apart g
  /\ names_apart (fst (save_user_name (utf8 "Zoe") g))
  /\ names_apart (fst (editor_save_robot true sample_directory
                         (carol_form true) g)).
Proof.
  cbv zeta.
  assert (Hg : names_apart (room 10 [ann; bob] [])) by reflexivity.
  destruct (names_stay_apart (room 10 [ann; bob] []) Hg) as (Hu & He & _).
  split; [exact Hg|]. split; [apply Hu|apply He].
Defined.

Lemma edited_robot_and_mentions_witness :
  let g := room 10 [ann; bob] [] in
  let carol := fst (editor_save_robot true sample_directory (carol_form true) g) in
  let bob2 := fst (editor_save_robot true sample_directory bob2_form g) in
  (snd (editor_save_robot true sample_directory (carol_form true) g) = true
   /\ parse_mention carol (64 :: utf8 "Carol" ++ 32 :: utf8 "hi")
      = (utf8 "hi", Some (utf8 "Carol")))
  /\ (snd (editor_save_robot true sample_directory bob2_form g) = true
      /\ dict_has (utf8 "Bob-2") (active_robots bob2) = true
      /\ snd (parse_mention bob2 (utf8 "@Bob-2 hi")) <> Some (utf8 "Bob-2")).
Proof.
  cbv zeta.
  assert (Hc : snd (editor_save_robot true sample_directory (carol_form true)
                      (room 10 [ann; bob] [])) = true) by reflexivity.
  assert (Hb : snd (editor_save_robot true sample_directory bob2_form
                      (room 10 [ann; bob] [])) = true) by reflexivity.
  split.
  - split; [exact Hc|].
    destruct (edited_robot_and_mentions true sample_directory (carol_form true)
                (room 10 [ann; bob] []) Hc) as (_ & _ & _ & _ & Hp & _).
    exact (Hp eq_refl 32 (utf8 "hi") eq_refl).
  - split; [exact Hb|].
    destruct (edited_robot_and_mentions true sample_directory bob2_form
                (room 10 [ann; bob] []) Hb) as (_ & _ & Ha & _ & _ & Hp).
    split; [exact Ha|]. exact (Hp eq_refl (utf8 "@Bob-2 hi")).
Defined.

Lemma save_all_config_saves_witness :
  let g := room 10 [ann; bob] [] in
  timeout_var (sample_form (Some 5%Z)) = Some 30%Z
  /\ max_turns_var (sample_form (Some 5%Z)) = Some 5%Z
  /\ (0 < 30)%Z /\ (1 <= 5)%Z
  /\ max_ai_conversation_turns
       (main_config (fst (save_all_config (sample_form (Some 5%Z)) g))) = 5%Z
  /\ ai_conversation_turns (fst (save_all_config (sample_form (Some 5%Z)) g))
     = ai_conversation_turns g.
Proof.
  cbv zeta.
  assert (H30 : (0 < 30)%Z) by reflexivity.
  assert (H5 : (1 <= 5)%Z) by discriminate.
  split; [reflexivity|]. split; [reflexivity|]. split; [exact H30|].
  split; [exact H5|].
  destruct (proj2 (save_all_config_saves (sample_form (Some 5%Z))
                     (room 10 [ann; bob] []))
              30%Z 5%Z eq_refl eq_refl H30 H5) as (Hc & _ & _ & Ht & _).
  split; [rewrite Hc; reflexivity|exact Ht].
Defined.

Lemma history_only_grows_witness :
  Send (utf8 "hello") (utf8 "Eve") <> Clear
  /\ chat_history started
     `prefix_of` chat_history
                   (run ok_service (Send (utf8 "hello") (utf8 "Eve")) started).
Proof.
  assert (Hop : Send (utf8 "hello") (utf8 "Eve") <> Clear) by discriminate.
  split; [exact Hop|].
  exact (history_only_grows ok_service _ started Hop).
Defined.

Lemma addressed_robot_answers_alone_witness :
  let g := room 10 [ann; bob] [] in
  NoDup (map fst (active_robots g)) /\ bob ∈ active_robots g
  /\ target ann_to_bob = Some Bob /\ Bob <> []
  /\ responding_robots g ann_to_bob true = [bob].
Proof.
  cbv zeta.
  assert (Hd : NoDup (map fst (active_robots (room 10 [ann; bob] []))))
    by decided.
  assert (Hin : (Bob, snd bob) ∈ active_robots (room 10 [ann; bob] []))
    by (apply list_elem_of_further, list_elem_of_here).
  assert (Hne : Bob <> []) by discriminate.
  split; [exact Hd|]. split; [exact Hin|]. split; [reflexivity|].
  split; [exact Hne|].
  rewrite (addressed_robot_answers_alone (room 10 [ann; bob] []) ann_to_bob
             true Bob (snd bob) Hd Hin eq_refl Hne).
  vm_compute. reflexivity.
Defined.

Lemma send_message_under_robot_name_witness :
  let g := room 10 [ann; bob] [] in
  forallb py_isspace (utf8 "@Bob hi") = false
  /\ strip (utf8 " Bob ") <> []
  /\ dict_has (strip (utf8 " Bob ")) (active_robots g) = true
  /\ save_user_name (utf8 " Bob ") g = (g, NameTaken).
Proof.
  cbv zeta.
  assert (Hb : forallb py_isspace (utf8 "@Bob hi") = false) by reflexivity.
  assert (Hne : strip (utf8 " Bob ") <> []) by discriminate.
  assert (Hhas : dict_has (strip (utf8 " Bob "))
                   (active_robots (room 10 [ann; bob] [])) = true)
    by (vm_compute; reflexivity).
  split; [exact Hb|]. split; [exact Hne|]. split; [exact Hhas|].
  exact (proj1 (send_message_under_robot_name (utf8 "@Bob hi") (utf8 " Bob ")
                  (room 10 [ann; bob] []) Hb Hne Hhas)).
Defined.

Lemma consumer_quiet_witness :
  Forall (fun msg => role msg <> ASSISTANT) [hello_from_Eve]
  /\ foldl (deliver ok_service) started [hello_from_Eve]
     = set_chat_history (chat_history started ++ [hello_from_Eve]) started.
Proof.
  assert (Hf : Forall (fun msg => role msg <> ASSISTANT) [hello_from_Eve])
    by (apply Forall_singleton; discriminate).
  split; [exact Hf|].
  exact (consumer_quiet ok_service [hello_from_Eve] started (or_intror Hf)).
Defined.

(** The sample conversation is one that the steps reach. *)
Lemma sample_reachable : reachable service_addressing_Bob conversation.
Proof.
  unfold conversation, conversation_steps. cbn [foldl].
  apply reachable_step; [|cbn [allowed]; decided].
  do 3 (apply reachable_step; [|exact I]).
  apply reachable_initial.
Qed.

Lemma view_confidentiality_witness :
  reachable service_addressing_Bob conversation
  /\ ann_to_bob ∈ robot_specific_history conversation Ann (snd ann)
  /\ target ann_to_bob = Some Bob /\ Bob <> Ann
  /\ name ann_to_bob = Ann.
Proof.
  assert (Hin : ann_to_bob ∈ robot_specific_history conversation Ann (snd ann))
    by decided.
  assert (Hb : Bob <> Ann) by (intros E; vm_compute in E; discriminate E).
  split; [exact sample_reachable|]. split; [exact Hin|].
  split; [reflexivity|]. split; [exact Hb|].
  exact (view_confidentiality service_addressing_Bob _ Ann (snd ann)
           ann_to_bob Bob sample_reachable Hin eq_refl Hb).
Defined.

Lemma user_message_under_robot_name_is_shown_witness :
  let m := mkMessage USER (utf8 "secret") Ann (Some Bob) in
  let g' := run service_addressing_Bob (Consume m)
              (run service_addressing_Bob
                 (Send (utf8 "@Bob secret") (utf8 " Ann ")) conversation) in
  reachable service_addressing_Bob conversation
  /\ strip (utf8 " Ann ") = Ann
  /\ strip (utf8 "@Bob secret") = 64 :: Bob ++ 32 :: utf8 "secret"
  /\ dict_has Bob (active_robots conversation) = true
  /\ reachable service_addressing_Bob g'
  /\ m ∈ robot_specific_history g' Ann (snd ann).
Proof.
  cbv zeta.
  assert (Ha : strip (utf8 " Ann ") <> []) by discriminate.
  assert (He : strip (utf8 "@Bob secret") = 64 :: Bob ++ 32 :: utf8 "secret")
    by reflexivity.
  assert (Hb : Bob <> []) by discriminate.
  assert (Hhas : dict_has Bob (active_robots conversation) = true)
    by (vm_compute; reflexivity).
  split; [exact sample_reachable|]. split; [reflexivity|]. split; [exact He|].
  split; [exact Hhas|].
  destruct (user_message_under_robot_name_is_shown service_addressing_Bob
              conversation (utf8 "@Bob secret") (utf8 " Ann ") Bob
              (utf8 "secret") 32 (snd ann) sample_reachable Ha He Hb
              eq_refl eq_refl Hhas) as (Hr & _ & Hv & _).
  split; [exact Hr|exact Hv].
Defined.

Lemma reachable_registry_witness :
  reachable service_addressing_Bob conversation
  /\ NoDup (map fst (active_robots conversation)).
Proof.
  split; [exact sample_reachable|].
  exact (proj1 (reachable_registry service_addressing_Bob _ sample_reachable)).
Defined.

End MoreSamples.

End ChatGroup.
